(** * The AssemblyScript runtime: object headers, size classes,
      allocate / reallocate / discard / register, makeArray, and the
      [gc] hook interface.

    The runtime is embedded shallowly: WASM32 integers are [Z] with the
    wrap-around written out, linear memory is a byte map [Z -> Z], and
    the stateful functions live in a small state-and-failure monad whose
    state carries the memory, the backing allocator's state and the log
    of calls made to the backing allocator and to the collector. *)

From Stdlib Require Import ZArith List Bool Lia String.
Import ListNotations.
Local Open Scope Z_scope.

(* ================================================================== *)
(** ** Machine integers (WASM32) *)

Definition wrap32 (z : Z) : Z := z mod 2 ^ 32.

(** [clz<u32>]: number of leading zero bits of a 32-bit value. *)
Definition clz32 (x : Z) : Z :=
  if x =? 0 then 32 else 31 - Z.log2 x.

(** [i32.shl]: the shift count is taken modulo 32. *)
Definition shl32 (x k : Z) : Z := wrap32 (Z.shiftl x (Z.land k 31)).

(** [i32.shr_u] *)
Definition shr32_u (x k : Z) : Z := Z.shiftr x (Z.land k 31).

(** Reading of a 32-bit value as a signed [i32]. *)
Definition signed32 (x : Z) : Z := if x <? 2 ^ 31 then x else x - 2 ^ 32.

(** [select(ifTrue, ifFalse, condition)] *)
Definition select {X : Type} (ifTrue ifFalse : X) (condition : bool) : X :=
  if condition then ifTrue else ifFalse.

(* ================================================================== *)
(** ** Constants of [util/allocator]

    [AL_MASK] and [MAX_SIZE_32] are imported by the runtime from
    [./util/allocator]; their values are the ones compiled into
    [exports.optimized.wat] ([i32.const 7], [i32.const 1073741824]). *)

Definition AL_MASK : Z := 7.
Definition MAX_SIZE_32 : Z := 1073741824.

(* ================================================================== *)
(** ** Build configuration

    Everything the source decides with [isDefined(...)], with
    [ASC_NO_ASSERT], or takes from the compiler as a constant. *)

Record Build : Type := mkBuild {
  (** [isDefined(__ref_collect)] *)
  ref_collect_defined : bool;
  (** [isDefined(__ref_register)] *)
  ref_register_defined : bool;
  (** whether the compiler has a [__ref_link] hook to call on managed
      field stores *)
  ref_link_defined : bool;
  (** [ASC_NO_ASSERT] *)
  ASC_NO_ASSERT : bool;
  (** [HEAP_BASE], the first address past static data *)
  HEAP_BASE : Z;
  (** [classId<ArrayBuffer>()] *)
  classId_ArrayBuffer : Z
}.

(* ================================================================== *)
(** ** The common object header *)

(** Field offsets of [HEADER]: [classId: u32], [payloadSize: u32],
    [reserved1: usize], [reserved2: usize]. *)
Definition HEADER_classId : Z := 0.
Definition HEADER_payloadSize : Z := 4.
Definition HEADER_reserved1 : Z := 8.
Definition HEADER_reserved2 : Z := 12.
(** [offsetof<HEADER>()] *)
Definition offsetof_HEADER : Z := 16.

Definition HEADER_SIZE (b : Build) : Z :=
  if ref_collect_defined b
  then Z.land (wrap32 (offsetof_HEADER + AL_MASK)) (wrap32 (Z.lnot AL_MASK))
  else Z.land (wrap32 (HEADER_reserved1 + AL_MASK)) (wrap32 (Z.lnot AL_MASK)).

Definition HEADER_MAGIC : Z := 0xA55E4B17.

(** [runtime.MAX_BYTELENGTH] *)
Definition MAX_BYTELENGTH (b : Build) : Z := MAX_SIZE_32 - HEADER_SIZE b.

(** [runtime.adjust] *)
Definition adjust (b : Build) (payloadSize : Z) : Z :=
  shl32 1 (wrap32 (32 - clz32 (wrap32 (payloadSize + HEADER_SIZE b - 1)))).

Definition is_power_of_two (z : Z) : Prop := exists k, 0 <= k /\ z = 2 ^ k.

(* ================================================================== *)
(** ** Linear memory

    A byte map over addresses.  Out-of-bounds traps of the WASM memory
    are not modelled: every address can be read and written. *)

Definition Memory : Type := Z -> Z.

Definition load8 (m : Memory) (a : Z) : Z := m a mod 256.

Definition store8 (m : Memory) (a v : Z) : Memory :=
  fun x => if x =? a then v mod 256 else m x.

(** [load<u32>], little endian *)
Definition load32 (m : Memory) (a : Z) : Z :=
  load8 m a + 2 ^ 8 * load8 m (a + 1)
  + 2 ^ 16 * load8 m (a + 2) + 2 ^ 24 * load8 m (a + 3).

(** [store<u32>], little endian *)
Definition store32 (m : Memory) (a v : Z) : Memory :=
  store8 (store8 (store8 (store8 m a v)
    (a + 1) (v / 2 ^ 8)) (a + 2) (v / 2 ^ 16)) (a + 3) (v / 2 ^ 24).

(** Modelled from the spec: [memory.copy] is not among the sources; it is
    the backing interface's copy(dst,src,len), a move of [n] bytes that
    reads the source range as it was before the call. *)
Definition copy_bytes (m : Memory) (dst src n : Z) : Memory :=
  fun x => if (dst <=? x) && (x <? dst + n) then m (src + (x - dst)) else m x.

(** Modelled from the spec: [memory.fill] is not among the sources; it is
    the backing interface's fill(dst,byte,len). *)
Definition fill_bytes (m : Memory) (dst c n : Z) : Memory :=
  fun x => if (dst <=? x) && (x <? dst + n) then c mod 256 else m x.

(* ================================================================== *)
(** ** The backing allocator

    [memory.allocate] and [memory.free] dispatch to whichever allocator
    the build links in.  Its bookkeeping is kept in a state of its own;
    [None] is the allocator's trap on exhaustion. *)

Class Allocator (A : Type) : Type := {
  mem_allocate : Z -> A -> option (Z * A);
  mem_free : Z -> A -> A
}.

(** The arena allocator, as compiled into [exports.optimized.wat]. *)
Module arena.

Record state : Type := mkState {
  (** global [$~lib/allocator/arena/startOffset] *)
  startOffset : Z;
  (** global [$~lib/allocator/arena/offset] *)
  offset : Z;
  (** [current_memory], in pages of 64 KiB *)
  pages : Z;
  (** the largest page count [grow_memory] grants *)
  max_pages : Z
}.

Definition set_offset (st : state) (o : Z) : state :=
  mkState (startOffset st) o (pages st) (max_pages st).

(** [grow_memory]: the previous page count, or -1 when refused. *)
Definition grow_memory (delta : Z) (st : state) : Z * state :=
  if pages st + delta <=? max_pages st
  then (pages st, mkState (startOffset st) (offset st) (pages st + delta) (max_pages st))
  else (wrap32 (-1), st).

(** [$~lib/allocator/arena/__mem_allocate] *)
Definition __mem_allocate (size : Z) (st : state) : option (Z * state) :=
  if MAX_SIZE_32 <? size then None
  else
    let ptr := offset st in
    let newPtr :=
      Z.land (wrap32 (wrap32 (ptr + select size 1 (1 <? size)) + 7)) (wrap32 (-8)) in
    let pagesBefore := pages st in
    if shl32 pagesBefore 16 <? newPtr then
      let pagesNeeded :=
        shr32_u (Z.land (wrap32 (wrap32 (newPtr - ptr) + 65535)) (wrap32 (-65536))) 16 in
      let pagesWanted :=
        select pagesBefore pagesNeeded (signed32 pagesNeeded <? signed32 pagesBefore) in
      let (r1, st1) := grow_memory pagesWanted st in
      if signed32 r1 <? 0 then
        let (r2, st2) := grow_memory pagesNeeded st1 in
        if signed32 r2 <? 0 then None
        else Some (ptr, set_offset st2 newPtr)
      else Some (ptr, set_offset st1 newPtr)
    else Some (ptr, set_offset st newPtr).

(** Modelled from the spec: the arena's free is not in the compiled
    module (nothing there calls it); it is the backing interface's
    free(address), and an arena reclaims nothing on it. *)
Definition __mem_free (ptr : Z) (st : state) : state := st.

(** [$start]: both globals are set to the aligned heap base. *)
Definition start (heap_base pages0 max : Z) : state :=
  mkState heap_base heap_base pages0 max.

End arena.

#[global] Instance arena_allocator : Allocator arena.state := {
  mem_allocate := arena.__mem_allocate;
  mem_free := arena.__mem_free
}.

(* ================================================================== *)
(** ** Program state, call log and the runtime monad *)

(** Calls leaving the runtime: to the backing allocator and to the
    collector's hooks. *)
Inductive Event : Type :=
| EAllocate (size addr : Z)
| EFree (addr : Z)
| ECopy (dst src n : Z)
| EFill (dst c n : Z)
| ERegister (ref : Z)
| ELink (ref parentRef : Z).

Inductive Failure : Type :=
| OutOfMemory
(** [assert(ref > HEAP_BASE)] *)
| AssertHeapObject
(** [assert(header.classId == HEADER_MAGIC)] *)
| AssertUnregistered.

Record State (A : Type) : Type := mkState {
  mem : Memory;
  heap : A;
  calls : list Event
}.
Arguments mkState {A} _ _ _.
Arguments mem {A} _.
Arguments heap {A} _.
Arguments calls {A} _.

(** A computation either returns a value with the state it leaves, or
    aborts with the state it had reached. *)
Inductive Result (A X : Type) : Type :=
| Ok (x : X) (s : State A)
| Abort (f : Failure) (s : State A).
Arguments Ok {A X} _ _.
Arguments Abort {A X} _ _.

Definition M (A X : Type) : Type := State A -> Result A X.

Definition ret {A X} (x : X) : M A X := fun s => Ok x s.

Definition bind {A X Y} (m : M A X) (k : X -> M A Y) : M A Y :=
  fun s => match m s with
           | Ok x s' => k x s'
           | Abort f s' => Abort f s'
           end.

Definition abort {A X} (f : Failure) : M A X := fun s => Abort f s.

Declare Scope rt_scope.
Delimit Scope rt_scope with rt.
Notation "x <- m ;; k" := (bind m (fun x => k))
  (at level 61, m at next level, right associativity) : rt_scope.
Notation "m ;; k" := (bind m (fun _ => k))
  (at level 61, right associativity) : rt_scope.
Local Open Scope rt_scope.

Definition log {A} (e : Event) : M A unit :=
  fun s => Ok tt (mkState (mem s) (heap s) (calls s ++ [e])).

Definition load_u32 {A} (a : Z) : M A Z := fun s => Ok (load32 (mem s) a) s.

Definition store_u32 {A} (a v : Z) : M A unit :=
  fun s => Ok tt (mkState (store32 (mem s) a v) (heap s) (calls s)).

Definition when {A} (c : bool) (m : M A unit) : M A unit :=
  if c then m else ret tt.

Section Runtime.
Context {A : Type} {allocator : Allocator A}.
Variable b : Build.

(** [memory.allocate] *)
Definition memory_allocate (size : Z) : M A Z :=
  fun s => match mem_allocate size (heap s) with
           | Some (p, h) => Ok p (mkState (mem s) h (calls s ++ [EAllocate size p]))
           | None => Abort OutOfMemory s
           end.

(** [memory.free] *)
Definition memory_free (ptr : Z) : M A unit :=
  fun s => Ok tt (mkState (mem s) (mem_free ptr (heap s)) (calls s ++ [EFree ptr])).

(** [memory.copy] *)
Definition memory_copy (dst src n : Z) : M A unit :=
  fun s => Ok tt (mkState (copy_bytes (mem s) dst src n) (heap s)
                          (calls s ++ [ECopy dst src n])).

(** [memory.fill] *)
Definition memory_fill (dst c n : Z) : M A unit :=
  fun s => Ok tt (mkState (fill_bytes (mem s) dst c n) (heap s)
                          (calls s ++ [EFill dst c n])).

(** [assert(condition)]; compiled away under [ASC_NO_ASSERT]. *)
Definition assert (condition : bool) (f : Failure) : M A unit :=
  if ASC_NO_ASSERT b then ret tt
  else if condition then ret tt else abort f.

(** The collector's [__ref_register] hook. *)
Definition __ref_register (ref : Z) : M A unit := log (ERegister ref).

(** The collector's [__ref_link] hook. *)
Definition __ref_link (ref parentRef : Z) : M A unit := log (ELink ref parentRef).

(** [runtime.allocate] *)
Definition allocate (payloadSize : Z) : M A Z :=
  header <- memory_allocate (adjust b payloadSize) ;;
  store_u32 (header + HEADER_classId) HEADER_MAGIC ;;
  store_u32 (header + HEADER_payloadSize) payloadSize ;;
  when (ref_collect_defined b)
    (store_u32 (header + HEADER_reserved1) 0 ;;
     store_u32 (header + HEADER_reserved2) 0) ;;
  ret (wrap32 (header + HEADER_SIZE b)).

(** [runtime.reallocate] *)
Definition reallocate (ref newPayloadSize : Z) : M A Z :=
  let header := wrap32 (ref - HEADER_SIZE b) in
  payloadSize <- load_u32 (header + HEADER_payloadSize) ;;
  moved <-
    (if payloadSize <? newPayloadSize then
       let newAdjustedSize := adjust b newPayloadSize in
       if select (adjust b payloadSize) 0 (HEAP_BASE b <? ref) <? newAdjustedSize then
         newHeader <- memory_allocate newAdjustedSize ;;
         classId <- load_u32 (header + HEADER_classId) ;;
         store_u32 (newHeader + HEADER_classId) classId ;;
         when (ref_collect_defined b)
           (store_u32 (newHeader + HEADER_reserved1) 0 ;;
            store_u32 (newHeader + HEADER_reserved2) 0) ;;
         let newRef := wrap32 (newHeader + HEADER_SIZE b) in
         memory_copy newRef ref payloadSize ;;
         memory_fill (wrap32 (newRef + payloadSize)) 0
                     (wrap32 (newPayloadSize - payloadSize)) ;;
         classId' <- load_u32 (header + HEADER_classId) ;;
         (if classId' =? HEADER_MAGIC then
            assert (HEAP_BASE b <? ref) AssertHeapObject ;;
            memory_free header
          else
            when (ref_collect_defined b) (__ref_register ref)) ;;
         ret (newHeader, newRef)
       else
         memory_fill (wrap32 (ref + payloadSize)) 0
                     (wrap32 (newPayloadSize - payloadSize)) ;;
         ret (header, ref)
     else ret (header, ref)) ;;
  store_u32 (fst moved + HEADER_payloadSize) newPayloadSize ;;
  ret (snd moved).

(** [runtime.discard] *)
Definition discard (ref : Z) : M A unit :=
  if negb (ASC_NO_ASSERT b) then
    assert (HEAP_BASE b <? ref) AssertHeapObject ;;
    let header := wrap32 (ref - HEADER_SIZE b) in
    classId <- load_u32 (header + HEADER_classId) ;;
    assert (classId =? HEADER_MAGIC) AssertUnregistered ;;
    memory_free header
  else
    memory_free (wrap32 (ref - HEADER_SIZE b)).

(** [runtime.register] *)
Definition register (ref classId : Z) : M A Z :=
  (if negb (ASC_NO_ASSERT b) then
     assert (HEAP_BASE b <? ref) AssertHeapObject ;;
     let header := wrap32 (ref - HEADER_SIZE b) in
     classId' <- load_u32 (header + HEADER_classId) ;;
     assert (classId' =? HEADER_MAGIC) AssertUnregistered ;;
     store_u32 (header + HEADER_classId) classId
   else
     store_u32 (wrap32 (ref - HEADER_SIZE b) + HEADER_classId) classId) ;;
  when (ref_register_defined b) (__ref_register ref) ;;
  ret ref.

(** Modelled from the spec: the declarations of [ArrayBufferView] and
    [Array] are not among the sources.  The view has the three 32-bit
    fields [data], [dataStart] and [dataLength]; the array adds its
    length field, so [offsetof<i32[]>()] is 16. *)
Definition ArrayBufferView_data : Z := 0.
Definition ArrayBufferView_dataStart : Z := 4.
Definition ArrayBufferView_dataLength : Z := 8.
Definition Array_length_ : Z := 12.
Definition offsetof_Array : Z := 16.

(** Modelled from the spec: the compiler's code for the store the
    source marks [// links] is not among the sources.  Field-assignment
    code stores the reference and, when the collector's link hook
    exists, invokes link(ref, parentRef) for the stored child and the
    object now referencing it. *)
Definition store_managed_field (parentRef fieldOffset ref : Z) : M A unit :=
  store_u32 (parentRef + fieldOffset) ref ;;
  when (ref_link_defined b) (__ref_link ref parentRef).

(** [runtime.makeArray] *)
Definition makeArray (capacity cid alignLog2 source : Z) : M A Z :=
  scratch <- allocate offsetof_Array ;;
  array <- register scratch cid ;;
  let bufferSize := shl32 capacity alignLog2 in
  scratch' <- allocate (shl32 capacity alignLog2) ;;
  buffer <- register scratch' (classId_ArrayBuffer b) ;;
  store_managed_field array ArrayBufferView_data buffer ;;
  store_u32 (array + ArrayBufferView_dataStart) buffer ;;
  store_u32 (array + ArrayBufferView_dataLength) bufferSize ;;
  store_u32 (array + Array_length_) capacity ;;
  when (negb (source =? 0)) (memory_copy buffer source bufferSize) ;;
  ret array.

End Runtime.

(* ================================================================== *)
(** ** The compiled module ([tests/compiler/exports.optimized.wat])

    The functions of the compiled test module that use the runtime: the
    runtime functions as the compiler specialised them, and the exported
    class built on them.  They run on the arena allocator; [None] is
    the trap of [unreachable]. *)

Module compiled.

(** The assertion behind a call of [$~lib/env/abort], by its line in the
    compiled runtime.ts: 145 is [assert(ref > HEAP_BASE)] and 147 is
    [assert(header.classId == HEADER_MAGIC)], both in register. *)
Definition abort_at (line : Z) : Failure :=
  if line =? 145 then AssertHeapObject else AssertUnregistered.

(** [$~lib/runtime/runtime.allocate] *)
Definition runtime_allocate : M arena.state Z :=
  p <- memory_allocate 16 ;;
  store_u32 p (-1520547049) ;;
  store_u32 (p + 4) 4 ;;
  ret (wrap32 (p + 8)).

(** [$~lib/runtime/runtime.register] *)
Definition runtime_register (ref classId : Z) : M arena.state Z :=
  if ref <=? 48 then abort (abort_at 145)
  else
    let header := wrap32 (ref - 8) in
    v <- load_u32 header ;;
    if negb (v =? wrap32 (-1520547049)) then abort (abort_at 147)
    else store_u32 header classId ;; ret ref.

(** [$exports/add] *)
Definition add (a b : Z) : Z := wrap32 (a + b).

(** [$exports/subOpt] *)
Definition subOpt (a b : Z) : Z := wrap32 (a - b).

(** [$exports/subOpt|trampoline], for the value [argc] of the global
    [$~lib/argc] at the call. *)
Definition subOpt_trampoline (argc a b : Z) : option Z :=
  match wrap32 (argc - 1) with
  | 0 => Some (wrap32 (a - 0))
  | 1 => Some (wrap32 (a - b))
  | _ => None
  end.



(** The body shared by the two constructor trampolines once the default
    argument is settled; [classId] is 1 for [$exports/Car] and 3 for
    [$exports/vehicles.Car]. *)
Definition constructor_body (classId this numDoors : Z) : M arena.state Z :=
  this' <- (if this =? 0
            then (ref <- runtime_allocate ;; runtime_register ref classId)
            else ret this) ;;
  store_u32 this' numDoors ;;
  store_u32 this' numDoors ;;
  ret this'.


(** [$exports/vehicles.Car#constructor|trampoline] *)
Definition vehicles_Car_constructor_trampoline (argc this numDoors : Z)
  : option (M arena.state Z) :=
  match argc with
  | 0 => Some (constructor_body 3 this 2)
  | 1 => Some (constructor_body 3 this numDoors)
  | _ => None
  end.

End compiled.

(* ================================================================== *)
(** ** The garbage collector interface ([std/assembly/gc.ts]) *)

Module gc.

(** Which of the collector's functions the build defines. *)
Record Hooks : Type := mkHooks {
  (** [isDefined(__gc_register)] *)
  gc_register_defined : bool;
  (** [isDefined(__gc_link)] *)
  gc_link_defined : bool;
  (** [isDefined(__gc_mark)] *)
  gc_mark_defined : bool;
  (** [isDefined(__gc_collect)] *)
  gc_collect_defined : bool
}.

(** Calls received by the collector. *)
Inductive Call : Type :=
| __gc_register (ref : Z)
| __gc_link (ref parentRef : Z)
| __gc_mark (ref : Z)
| __gc_collect.

Record State : Type := mkState {
  forwarded : list Call;
  warnings : list string
}.

Inductive Outcome : Type :=
| Continues (s : State)
| Fatal (diagnostic : string).

(** Modelled from the spec: the builtin [ERROR] is not among the
    sources; reaching it fails fatally with the given diagnostic. *)
Definition ERROR (message : string) (s : State) : Outcome := Fatal message.

(** Modelled from the spec: the builtin [WARNING] is not among the
    sources; reaching it emits the warning and execution continues. *)
Definition WARNING (message : string) (s : State) : Outcome :=
  Continues (mkState (forwarded s) (warnings s ++ [message])).

Definition forward (c : Call) (s : State) : Outcome :=
  Continues (mkState (forwarded s ++ [c]) (warnings s)).

(** [gc.implemented] *)
Definition implemented (h : Hooks) : bool := gc_register_defined h.

(** [gc.register] *)
Definition register (h : Hooks) (ref : Z) (s : State) : Outcome :=
  if gc_register_defined h then forward (__gc_register ref) s
  else ERROR "missing implementation: gc.register" s.

(** [gc.link] *)
Definition link (h : Hooks) (ref parentRef : Z) (s : State) : Outcome :=
  if gc_link_defined h then forward (__gc_link ref parentRef) s
  else ERROR "missing implementation: gc.link" s.

(** [gc.mark] *)
Definition mark (h : Hooks) (ref : Z) (s : State) : Outcome :=
  if gc_mark_defined h then forward (__gc_mark ref) s
  else ERROR "missing implementation: gc.mark" s.

(** [gc.collect] *)
Definition collect (h : Hooks) (s : State) : Outcome :=
  if gc_collect_defined h then forward __gc_collect s
  else WARNING "missing implementation: gc.collect" s.

(** The two build configurations. *)
Definition no_collector : Hooks := mkHooks false false false false.
Definition with_collector : Hooks := mkHooks true true true true.

(** A diagnostic names a hook when it ends with the hook's name. *)
Definition names (diagnostic hook : string) : Prop :=
  exists prefix : string, diagnostic = (prefix ++ hook)%string.

End gc.

(* ================================================================== *)
(** ** Observations and concrete configurations *)

Definition state_of {A X} (r : Result A X) : State A :=
  match r with Ok _ s => s | Abort _ s => s end.

(** The ordering the array construction is asked to keep: every
    allocation is logged before any registration. *)
Definition allocations_precede_registrations (l : list Event) : Prop :=
  forall i j size addr ref,
    nth_error l i = Some (EAllocate size addr) ->
    nth_error l j = Some (ERegister ref) ->
    (i < j)%nat.

(** Checked builds with and without a collector, with the heap base of
    [exports.optimized.wat]. *)
Definition collector_build : Build := mkBuild true true true false 48 2.
Definition plain_build : Build := mkBuild false false false false 48 2.

(** A fresh instance: zeroed memory of one page, the arena just started. *)
Definition fresh_state : State arena.state :=
  mkState (fun _ => 0) (arena.start 48 1 65536) [].

(** The same instance with one stale byte left in unallocated memory. *)
Definition stale_state : State arena.state :=
  mkState (fun x => if x =? 100 then 255 else 0) (arena.start 48 1 65536) [].

(** A registered object of class 5 with a 4-byte payload at reference 64,
    as [register(allocate(4), 5)] leaves it in a collector build. *)
Definition registered_state : State arena.state :=
  state_of (bind (allocate collector_build 4)
                 (fun ref => register collector_build ref 5) fresh_state).

(** A scratch object with a 4-byte payload at reference 56. *)
Definition scratch_state : State arena.state :=
  state_of (allocate plain_build 4 fresh_state).

(** The scratch object after its four payload bytes have been written. *)
Definition written_state : State arena.state :=
  mkState (store32 (mem scratch_state) 56 0xDEADBEEF)
          (heap scratch_state) (calls scratch_state).

(** A build with assertions compiled away, and no collector. *)
Definition unchecked_build : Build := mkBuild false false false true 48 2.

(** A registered object of class 7 with a 4-byte payload in static data,
    at reference 24, below the heap base. *)
Definition static_state : State arena.state :=
  mkState (store32 (store32 (fun _ => 0) 16 7) 20 4) (arena.start 48 1 65536) [].

(** The same static object with a header that reads HEADER_MAGIC. *)
Definition static_scratch_state : State arena.state :=
  mkState (store32 (store32 (fun _ => 0) 16 HEADER_MAGIC) 20 4)
          (arena.start 48 1 65536) [].

(** A scratch object with a 4-byte payload at reference 56 in an instance
    whose memory cannot grow beyond its single page. *)
Definition full_state : State arena.state :=
  state_of (allocate plain_build 4 (mkState (fun _ => 0) (arena.start 48 1 1) [])).

(** A scratch object with a 100-byte payload at reference 56, in a block
    of 128 bytes. *)
Definition large_state : State arena.state :=
  state_of (allocate plain_build 100 fresh_state).

(** A fresh instance whose memory cannot grow beyond its single page. *)
Definition small_state : State arena.state :=
  mkState (fun _ => 0) (arena.start 48 1 1) [].

(** A fresh instance with the bytes 1..12 in static data at address 8. *)
Definition source_state : State arena.state :=
  mkState (fun x => if (8 <=? x) && (x <? 20) then x - 7 else 0)
          (arena.start 48 1 65536) [].

(* ================================================================== *)
(** ** Facts about the machine integers and the size classes *)

Lemma wrap32_small z : 0 <= z < 2 ^ 32 -> wrap32 z = z.
Proof. intros Hz. unfold wrap32. now apply Z.mod_small. Qed.

Lemma wrap32_range z : 0 <= wrap32 z < 2 ^ 32.
Proof. unfold wrap32. apply Z.mod_pos_bound. lia. Qed.

Lemma HEADER_SIZE_cases b : HEADER_SIZE b = 8 \/ HEADER_SIZE b = 16.
Proof. unfold HEADER_SIZE. destruct (ref_collect_defined b); [right | left]; reflexivity. Qed.

Lemma HEADER_SIZE_collector b :
  HEADER_SIZE b = if ref_collect_defined b then 16 else 8.
Proof. unfold HEADER_SIZE. destruct (ref_collect_defined b); reflexivity. Qed.

Lemma shl32_one k : 0 <= k < 32 -> shl32 1 k = 2 ^ k.
Proof.
  intros Hk. unfold shl32.
  change 31 with (Z.ones 5). rewrite Z.land_ones by lia.
  rewrite (Z.mod_small k) by (change (2 ^ 5) with 32; lia).
  rewrite Z.shiftl_1_l. apply wrap32_small.
  split; [apply Z.pow_nonneg; lia | apply Z.pow_lt_mono_r; lia].
Qed.

(** The block size of a request [x = payloadSize + HEADER_SIZE] that
    fits the 32-bit size range, as a power of the bit length of [x - 1]. *)
Lemma adjust_log2 b payloadSize :
  0 <= payloadSize -> payloadSize + HEADER_SIZE b <= 2 ^ 31 ->
  adjust b payloadSize = 2 ^ (Z.log2 (payloadSize + HEADER_SIZE b - 1) + 1).
Proof.
  intros Hp Hmax. unfold adjust.
  pose proof (HEADER_SIZE_cases b) as HH.
  set (x := payloadSize + HEADER_SIZE b - 1).
  assert (Hx : 7 <= x < 2 ^ 31) by (unfold x; lia).
  rewrite (wrap32_small x) by lia.
  unfold clz32. destruct (Z.eqb_spec x 0) as [E | _]; [lia |].
  assert (Hl : 0 <= Z.log2 x < 31).
  { split; [apply Z.log2_nonneg |]. apply Z.log2_lt_pow2; lia. }
  replace (32 - (31 - Z.log2 x)) with (Z.log2 x + 1) by lia.
  rewrite wrap32_small by lia.
  apply shl32_one. lia.
Qed.

Lemma adjust_bounds b payloadSize :
  0 <= payloadSize -> payloadSize + HEADER_SIZE b <= 2 ^ 31 ->
  payloadSize + HEADER_SIZE b <= adjust b payloadSize
  /\ adjust b payloadSize < 2 * (payloadSize + HEADER_SIZE b)
  /\ adjust b payloadSize <= 2 ^ 31.
Proof.
  intros Hp Hmax. rewrite adjust_log2 by assumption.
  pose proof (HEADER_SIZE_cases b) as HH.
  set (x := payloadSize + HEADER_SIZE b - 1).
  assert (Hx : 0 < x) by (unfold x; lia).
  pose proof (Z.log2_spec x Hx) as [Hlo Hhi].
  replace (Z.succ (Z.log2 x)) with (Z.log2 x + 1) in Hhi by lia.
  assert (Hpow : 2 ^ (Z.log2 x + 1) = 2 * 2 ^ Z.log2 x).
  { rewrite Z.pow_add_r by (try apply Z.log2_nonneg; lia). lia. }
  repeat split; try (fold x; lia).
  assert (Hl : Z.log2 x + 1 <= 31).
  { assert (Z.log2 x < 31) by (apply Z.log2_lt_pow2; unfold x; lia). lia. }
  fold x. apply Z.pow_le_mono_r; lia.
Qed.

Lemma adjust_mono b p q :
  0 <= p <= q -> q + HEADER_SIZE b <= 2 ^ 31 -> adjust b p <= adjust b q.
Proof.
  intros Hpq Hmax. rewrite !adjust_log2 by lia.
  pose proof (HEADER_SIZE_cases b) as HH.
  apply Z.pow_le_mono_r; [lia |].
  assert (Z.log2 (p + HEADER_SIZE b - 1) <= Z.log2 (q + HEADER_SIZE b - 1))
    by (apply Z.log2_le_mono; lia).
  lia.
Qed.

(** The table in the comment of [adjust], for HEADER_SIZE = 8, and the
    block size compiled into [$~lib/runtime/runtime.allocate]. *)
Example adjust_table :
  adjust plain_build 0 = 8
  /\ adjust plain_build 1 = 16 /\ adjust plain_build 8 = 16
  /\ adjust plain_build 9 = 32 /\ adjust plain_build 24 = 32
  /\ adjust plain_build (MAX_BYTELENGTH plain_build) = 0x40000000
  /\ adjust plain_build 4 = 16.
Proof. repeat split; vm_compute; reflexivity. Qed.

(** C3. For every payloadSize in [0, MAX_BYTELENGTH], [adjust] returns a
    power of two that is at least payloadSize + HEADER_SIZE and strictly
    less than twice payloadSize + HEADER_SIZE. *)
Theorem adjust_size_class (b : Build) (payloadSize : Z) :
  0 <= payloadSize <= MAX_BYTELENGTH b ->
  is_power_of_two (adjust b payloadSize)
  /\ payloadSize + HEADER_SIZE b <= adjust b payloadSize
  /\ adjust b payloadSize < 2 * (payloadSize + HEADER_SIZE b).
Proof.
  intros [Hlo Hhi]. unfold MAX_BYTELENGTH, MAX_SIZE_32 in Hhi.
  assert (Hmax : payloadSize + HEADER_SIZE b <= 2 ^ 31) by lia.
  destruct (adjust_bounds b payloadSize Hlo Hmax) as (H1 & H2 & _).
  split; [| split; assumption].
  exists (Z.log2 (payloadSize + HEADER_SIZE b - 1) + 1). split.
  - pose proof (Z.log2_nonneg (payloadSize + HEADER_SIZE b - 1)). lia.
  - now apply adjust_log2.
Qed.

(* ================================================================== *)
(** ** Facts about linear memory *)

Lemma wrap32_add_sub p h : 0 <= p < 2 ^ 32 -> wrap32 (wrap32 (p + h) - h) = p.
Proof.
  intros Hp. unfold wrap32. rewrite Zminus_mod_idemp_l.
  replace (p + h - h) with p by lia. now apply Z.mod_small.
Qed.

Lemma load8_range m a : 0 <= load8 m a < 256.
Proof. unfold load8. apply Z.mod_pos_bound. lia. Qed.

Lemma load32_range m a : 0 <= load32 m a < 2 ^ 32.
Proof.
  unfold load32.
  pose proof (load8_range m a). pose proof (load8_range m (a + 1)).
  pose proof (load8_range m (a + 2)). pose proof (load8_range m (a + 3)).
  lia.
Qed.

Lemma load32_ext m m' a :
  (forall x, a <= x < a + 4 -> m' x = m x) -> load32 m' a = load32 m a.
Proof.
  intros H. unfold load32, load8.
  rewrite (H a), (H (a + 1)), (H (a + 2)), (H (a + 3)) by lia. reflexivity.
Qed.

Lemma store8_other m a v x : x <> a -> store8 m a v x = m x.
Proof. intros H. unfold store8. destruct (Z.eqb_spec x a); [contradiction | reflexivity]. Qed.

Lemma store32_other m a v x : ~ (a <= x < a + 4) -> store32 m a v x = m x.
Proof. intros H. unfold store32. rewrite !store8_other by lia. reflexivity. Qed.

Lemma load32_store32_same m a v : load32 (store32 m a v) a = wrap32 v.
Proof.
  unfold load32, load8, store32, store8, wrap32.
  repeat match goal with
         | |- context [?x =? ?y] => destruct (Z.eqb_spec x y); try lia
         end.
  rewrite !Z.mod_mod by lia.
  change (2 ^ 8) with 256. change (2 ^ 16) with 65536.
  change (2 ^ 24) with 16777216. change (2 ^ 32) with 4294967296.
  Z.div_mod_to_equations. lia.
Qed.

Lemma load32_store32_other m a v a' :
  a' + 4 <= a \/ a + 4 <= a' -> load32 (store32 m a v) a' = load32 m a'.
Proof. intros H. apply load32_ext. intros x Hx. apply store32_other. lia. Qed.

Lemma load8_store32_other m a v x :
  ~ (a <= x < a + 4) -> load8 (store32 m a v) x = load8 m x.
Proof. intros H. unfold load8. now rewrite store32_other. Qed.

Lemma copy_bytes_inside m dst src n x :
  dst <= x < dst + n -> copy_bytes m dst src n x = m (src + (x - dst)).
Proof.
  intros H. unfold copy_bytes.
  destruct (Z.leb_spec dst x); destruct (Z.ltb_spec x (dst + n)); simpl; lia || reflexivity.
Qed.

Lemma copy_bytes_outside m dst src n x :
  ~ (dst <= x < dst + n) -> copy_bytes m dst src n x = m x.
Proof.
  intros H. unfold copy_bytes.
  destruct (Z.leb_spec dst x); destruct (Z.ltb_spec x (dst + n)); simpl; lia || reflexivity.
Qed.

Lemma fill_bytes_inside m dst c n x :
  dst <= x < dst + n -> fill_bytes m dst c n x = c mod 256.
Proof.
  intros H. unfold fill_bytes.
  destruct (Z.leb_spec dst x); destruct (Z.ltb_spec x (dst + n)); simpl; lia || reflexivity.
Qed.

Lemma load32_copy_other m dst src n a :
  a + 4 <= dst \/ dst + n <= a -> load32 (copy_bytes m dst src n) a = load32 m a.
Proof. intros H. apply load32_ext. intros x Hx. apply copy_bytes_outside. lia. Qed.

Lemma load32_fill_other m dst c n a :
  a + 4 <= dst \/ dst + n <= a -> load32 (fill_bytes m dst c n) a = load32 m a.
Proof.
  intros H. apply load32_ext. intros x Hx. unfold fill_bytes.
  destruct (Z.leb_spec dst x); destruct (Z.ltb_spec x (dst + n)); simpl; lia || reflexivity.
Qed.

Lemma fill_bytes_outside m dst c n x :
  ~ (dst <= x < dst + n) -> fill_bytes m dst c n x = m x.
Proof.
  intros H. unfold fill_bytes.
  destruct (Z.leb_spec dst x); destruct (Z.ltb_spec x (dst + n)); simpl; lia || reflexivity.
Qed.

(* ================================================================== *)
(** ** Running the runtime functions *)

Ltac run_monad :=
  unfold bind, ret, abort, when, log, load_u32, store_u32,
    memory_free, memory_copy, memory_fill, __ref_register, __ref_link; simpl.

Section RuntimeFacts.
Context {A : Type} {allocator : Allocator A}.
Variable b : Build.

Lemma header_of_ref p :
  0 <= p < 2 ^ 32 -> wrap32 (wrap32 (p + HEADER_SIZE b) - HEADER_SIZE b) = p.
Proof. apply wrap32_add_sub. Qed.

(** What [allocate] does once the backing allocator has handed out the
    block at [p]: the header is written, nothing else is. *)
Lemma allocate_run (s : State A) n p h :
  mem_allocate (adjust b n) (heap s) = Some (p, h) ->
  exists m',
    allocate b n s
    = Ok (wrap32 (p + HEADER_SIZE b))
         (mkState m' h (calls s ++ [EAllocate (adjust b n) p]))
    /\ load32 m' (p + HEADER_classId) = HEADER_MAGIC
    /\ load32 m' (p + HEADER_payloadSize) = wrap32 n
    /\ (ref_collect_defined b = true ->
        load32 m' (p + HEADER_reserved1) = 0 /\ load32 m' (p + HEADER_reserved2) = 0)
    /\ (forall x, ~ (p <= x < p + HEADER_SIZE b) -> m' x = mem s x).
Proof.
  intros Hal. unfold allocate, memory_allocate, bind at 1. rewrite Hal.
  rewrite HEADER_SIZE_collector.
  unfold HEADER_classId, HEADER_payloadSize, HEADER_reserved1, HEADER_reserved2.
  destruct (ref_collect_defined b); run_monad; eexists; (split; [reflexivity |]).
  - repeat split.
    + rewrite !load32_store32_other by lia. now rewrite load32_store32_same.
    + rewrite !load32_store32_other by lia. now rewrite load32_store32_same.
    + rewrite !load32_store32_other by lia. now rewrite load32_store32_same.
    + now rewrite load32_store32_same.
    + intros x Hx. rewrite !store32_other by lia. reflexivity.
  - repeat split.
    + rewrite !load32_store32_other by lia. now rewrite load32_store32_same.
    + now rewrite load32_store32_same.
    + discriminate.
    + discriminate.
    + intros x Hx. rewrite !store32_other by lia. reflexivity.
Qed.

Lemma allocate_out_of_memory (s : State A) n :
  mem_allocate (adjust b n) (heap s) = None ->
  allocate b n s = Abort OutOfMemory s.
Proof.
  intros Hal. unfold allocate, memory_allocate, bind at 1. now rewrite Hal.
Qed.

(** [register] on a heap object that is still scratch. *)
Lemma register_run (s : State A) ref cid :
  (ASC_NO_ASSERT b = false ->
   HEAP_BASE b < ref
   /\ load32 (mem s) (wrap32 (ref - HEADER_SIZE b) + HEADER_classId) = HEADER_MAGIC) ->
  register b ref cid s
  = Ok ref (mkState (store32 (mem s) (wrap32 (ref - HEADER_SIZE b) + HEADER_classId) cid)
                    (heap s)
                    (calls s ++ if ref_register_defined b then [ERegister ref] else [])).
Proof.
  intros Hpre. unfold register, assert.
  destruct (ASC_NO_ASSERT b); simpl.
  - run_monad. destruct (ref_register_defined b); simpl; [reflexivity |].
    now rewrite app_nil_r.
  - destruct (Hpre eq_refl) as [Hheap Hmagic].
    destruct (Z.ltb_spec (HEAP_BASE b) ref); [| lia].
    run_monad. rewrite Hmagic. simpl.
    destruct (ref_register_defined b); simpl; [reflexivity |].
    now rewrite app_nil_r.
Qed.

(** In a checked build [register] stops at its assertions when the
    object is not scratch, leaving the state untouched. *)
Lemma register_rejects (s : State A) ref cid :
  ASC_NO_ASSERT b = false ->
  load32 (mem s) (wrap32 (ref - HEADER_SIZE b) + HEADER_classId) <> HEADER_MAGIC ->
  register b ref cid s
  = Abort (if HEAP_BASE b <? ref then AssertUnregistered else AssertHeapObject) s.
Proof.
  intros Hchk Hne. unfold register, assert. rewrite Hchk. simpl.
  destruct (Z.ltb_spec (HEAP_BASE b) ref); run_monad; [| reflexivity].
  destruct (Z.eqb_spec
    (load32 (mem s) (wrap32 (ref - HEADER_SIZE b) + HEADER_classId)) HEADER_MAGIC);
    [contradiction | reflexivity].
Qed.

(** [discard] in a checked build, on a scratch heap object. *)
Lemma discard_run (s : State A) ref :
  (ASC_NO_ASSERT b = false ->
   HEAP_BASE b < ref
   /\ load32 (mem s) (wrap32 (ref - HEADER_SIZE b) + HEADER_classId) = HEADER_MAGIC) ->
  discard b ref s
  = Ok tt (mkState (mem s) (mem_free (wrap32 (ref - HEADER_SIZE b)) (heap s))
                   (calls s ++ [EFree (wrap32 (ref - HEADER_SIZE b))])).
Proof.
  intros Hpre. unfold discard, assert.
  destruct (ASC_NO_ASSERT b); simpl; [reflexivity |].
  destruct (Hpre eq_refl) as [Hheap Hmagic].
  destruct (Z.ltb_spec (HEAP_BASE b) ref); [| lia].
  run_monad. rewrite Hmagic. reflexivity.
Qed.

Lemma discard_rejects (s : State A) ref :
  ASC_NO_ASSERT b = false ->
  load32 (mem s) (wrap32 (ref - HEADER_SIZE b) + HEADER_classId) <> HEADER_MAGIC ->
  discard b ref s
  = Abort (if HEAP_BASE b <? ref then AssertUnregistered else AssertHeapObject) s.
Proof.
  intros Hchk Hne. unfold discard, assert. rewrite Hchk. simpl.
  destruct (Z.ltb_spec (HEAP_BASE b) ref); run_monad; [| reflexivity].
  destruct (Z.eqb_spec
    (load32 (mem s) (wrap32 (ref - HEADER_SIZE b) + HEADER_classId)) HEADER_MAGIC);
    [contradiction | reflexivity].
Qed.

(** [reallocate] to a size that is not larger: only the header's
    payloadSize is rewritten. *)
Lemma reallocate_no_growth_run (s : State A) ref newPayloadSize :
  newPayloadSize
  <= load32 (mem s) (wrap32 (ref - HEADER_SIZE b) + HEADER_payloadSize) ->
  reallocate b ref newPayloadSize s
  = Ok ref (mkState (store32 (mem s)
                       (wrap32 (ref - HEADER_SIZE b) + HEADER_payloadSize)
                       newPayloadSize)
                    (heap s) (calls s)).
Proof.
  intros Hle. unfold reallocate. run_monad.
  destruct (Z.ltb_spec
    (load32 (mem s) (wrap32 (ref - HEADER_SIZE b) + HEADER_payloadSize))
    newPayloadSize); [lia | reflexivity].
Qed.

(** [reallocate] growing a heap object inside its block: the new tail
    is filled with zeros and the header's payloadSize rewritten. *)
Lemma reallocate_in_place_run (s : State A) ref newPayloadSize :
  let header := wrap32 (ref - HEADER_SIZE b) in
  let payloadSize := load32 (mem s) (header + HEADER_payloadSize) in
  payloadSize < newPayloadSize ->
  HEAP_BASE b < ref ->
  adjust b newPayloadSize <= adjust b payloadSize ->
  reallocate b ref newPayloadSize s
  = Ok ref
       (mkState
          (store32
             (fill_bytes (mem s) (wrap32 (ref + payloadSize)) 0
                         (wrap32 (newPayloadSize - payloadSize)))
             (header + HEADER_payloadSize) newPayloadSize)
          (heap s)
          (calls s ++ [EFill (wrap32 (ref + payloadSize)) 0
                             (wrap32 (newPayloadSize - payloadSize))])).
Proof.
  intros header payloadSize Hlt Hheap Hfit. unfold reallocate. run_monad.
  fold header. fold payloadSize.
  destruct (Z.ltb_spec payloadSize newPayloadSize); [| lia].
  destruct (Z.ltb_spec (HEAP_BASE b) ref); [| lia]. unfold select.
  destruct (Z.ltb_spec (adjust b payloadSize) (adjust b newPayloadSize)); [lia |].
  reflexivity.
Qed.

Ltac mem_simpl :=
  repeat first
    [ rewrite load32_store32_same
    | rewrite load32_store32_other by lia
    | rewrite load32_fill_other by lia
    | rewrite load32_copy_other by lia
    | rewrite store32_other by lia
    | rewrite fill_bytes_inside by lia
    | rewrite fill_bytes_outside by lia
    | rewrite copy_bytes_inside by lia
    | rewrite copy_bytes_outside by lia ].

(** [reallocate] growing by a move: the block at [p] is handed out away
    from the old object, receives the old classId and payload and a
    zero tail; then the old block is freed if it was scratch, and
    otherwise the collector's register hook is called. *)
Lemma reallocate_move_run (s : State A) ref newPayloadSize p h :
  let header := wrap32 (ref - HEADER_SIZE b) in
  let payloadSize := load32 (mem s) (header + HEADER_payloadSize) in
  let classId := load32 (mem s) (header + HEADER_classId) in
  let newRef := p + HEADER_SIZE b in
  payloadSize < newPayloadSize ->
  select (adjust b payloadSize) 0 (HEAP_BASE b <? ref) < adjust b newPayloadSize ->
  mem_allocate (adjust b newPayloadSize) (heap s) = Some (p, h) ->
  0 <= p -> newRef + newPayloadSize <= 2 ^ 32 ->
  HEADER_SIZE b <= ref -> ref + payloadSize <= 2 ^ 32 ->
  newRef + newPayloadSize <= ref - HEADER_SIZE b \/ ref + payloadSize <= p ->
  (ASC_NO_ASSERT b = false -> classId = HEADER_MAGIC -> HEAP_BASE b < ref) ->
  exists m',
    reallocate b ref newPayloadSize s
    = Ok newRef
         (mkState m'
            (if classId =? HEADER_MAGIC then mem_free header h else h)
            (calls s
             ++ [EAllocate (adjust b newPayloadSize) p;
                 ECopy newRef ref payloadSize;
                 EFill (newRef + payloadSize) 0 (newPayloadSize - payloadSize)]
             ++ (if classId =? HEADER_MAGIC then [EFree header]
                 else if ref_collect_defined b then [ERegister ref] else [])))
    /\ load32 m' (p + HEADER_classId) = classId
    /\ load32 m' (p + HEADER_payloadSize) = newPayloadSize
    /\ (ref_collect_defined b = true ->
        load32 m' (p + HEADER_reserved1) = 0 /\ load32 m' (p + HEADER_reserved2) = 0)
    /\ (forall i, 0 <= i < payloadSize -> m' (newRef + i) = mem s (ref + i))
    /\ (forall i, payloadSize <= i < newPayloadSize -> m' (newRef + i) = 0)
    /\ (forall x, ~ (p <= x < newRef + newPayloadSize) -> m' x = mem s x).
Proof.
  intros header payloadSize classId newRef Hlt Hmove Hal Hp Hnew Href Hold Hdisj Hassert.
  pose proof (load32_range (mem s) (header + HEADER_payloadSize)) as Hn.
  pose proof (load32_range (mem s) (header + HEADER_classId)) as Hc.
  fold payloadSize in Hn. fold classId in Hc.
  pose proof (HEADER_SIZE_cases b) as HH.
  assert (Hhdr : header = ref - HEADER_SIZE b) by (apply wrap32_small; lia).
  assert (Hw1 : wrap32 (p + HEADER_SIZE b) = newRef) by (apply wrap32_small; unfold newRef in *; lia).
  assert (Hw2 : wrap32 (newRef + payloadSize) = newRef + payloadSize)
    by (apply wrap32_small; unfold newRef in *; lia).
  assert (Hw3 : wrap32 (newPayloadSize - payloadSize) = newPayloadSize - payloadSize)
    by (apply wrap32_small; unfold newRef in *; lia).
  assert (Hw4 : wrap32 newPayloadSize = newPayloadSize)
    by (apply wrap32_small; unfold newRef in *; lia).
  assert (Hw5 : wrap32 classId = classId) by (apply wrap32_small; lia).
  unfold reallocate. fold header. unfold load_u32 at 1, bind at 1. fold payloadSize.
  destruct (Z.ltb_spec payloadSize newPayloadSize); [| lia].
  destruct (Z.ltb_spec (select (adjust b payloadSize) 0 (HEAP_BASE b <? ref))
                       (adjust b newPayloadSize)); [| lia].
  unfold memory_allocate, bind at 2. unfold bind at 1. rewrite Hal.
  assert (Hsz : HEADER_SIZE b = if ref_collect_defined b then 16 else 8)
    by apply HEADER_SIZE_collector.
  unfold assert.
  destruct (ref_collect_defined b) eqn:Hgc; run_monad;
    rewrite !Hw1, !Hw2, !Hw3; fold header; fold classId;
    unfold HEADER_classId, HEADER_payloadSize, HEADER_reserved1, HEADER_reserved2 in *;
    unfold newRef in *;
    match goal with
    | |- context [load32 ?m (header + 0) =? HEADER_MAGIC] =>
        replace (load32 m (header + 0)) with classId
          by (unfold classId; mem_simpl; reflexivity)
    end;
    (destruct (Z.eqb_spec classId HEADER_MAGIC) as [Hscratch | Hregistered];
     [ destruct (ASC_NO_ASSERT b) eqn:Hchk;
       [| destruct (Z.ltb_spec (HEAP_BASE b) ref);
          [| specialize (Hassert eq_refl Hscratch); lia ] ]
     | ]);
    simpl; rewrite <- !app_assoc; simpl;
    (eexists; split; [reflexivity |]);
    (repeat split; intros;
     solve [ mem_simpl; (reflexivity || assumption || lia || (f_equal; lia)) ]).
Qed.

(** C5. For every n, right after ref = allocate(n) the header preceding
    ref has classId = HEADER_MAGIC and payloadSize = n, and in a build
    with a collector both reserved fields are zero. *)
Theorem allocate_writes_header (s : State A) n p h :
  0 <= n < 2 ^ 32 -> 0 <= p < 2 ^ 32 ->
  mem_allocate (adjust b n) (heap s) = Some (p, h) ->
  exists ref s',
    allocate b n s = Ok ref s'
    /\ let header := wrap32 (ref - HEADER_SIZE b) in
       load32 (mem s') (header + HEADER_classId) = HEADER_MAGIC
       /\ load32 (mem s') (header + HEADER_payloadSize) = n
       /\ (ref_collect_defined b = true ->
           load32 (mem s') (header + HEADER_reserved1) = 0
           /\ load32 (mem s') (header + HEADER_reserved2) = 0).
Proof.
  intros Hn Hp Hal.
  destruct (allocate_run s n p h Hal) as (m' & Hrun & Hcid & Hsize & Hres & _).
  exists (wrap32 (p + HEADER_SIZE b)). eexists. split; [exact Hrun |].
  cbv zeta. rewrite header_of_ref by assumption. simpl.
  rewrite Hsize, wrap32_small by assumption. auto.
Qed.

(** C6. In a checked build register on a reference whose classId is not
    HEADER_MAGIC fails an assertion and changes nothing; on a scratch
    heap object it succeeds and overwrites classId with typeId, after
    which (typeId being a type id, not the reserved HEADER_MAGIC) every
    further register on that reference fails the assertion on
    classId: the step from HEADER_MAGIC to a type id is taken once. *)
Theorem register_not_idempotent (s : State A) ref typeId :
  ASC_NO_ASSERT b = false ->
  let header := wrap32 (ref - HEADER_SIZE b) in
  (load32 (mem s) (header + HEADER_classId) <> HEADER_MAGIC ->
   register b ref typeId s
   = Abort (if HEAP_BASE b <? ref then AssertUnregistered else AssertHeapObject) s)
  /\ (load32 (mem s) (header + HEADER_classId) = HEADER_MAGIC ->
      HEAP_BASE b < ref -> 0 <= typeId < 2 ^ 32 ->
      exists s',
        register b ref typeId s = Ok ref s'
        /\ load32 (mem s') (header + HEADER_classId) = typeId
        /\ (typeId <> HEADER_MAGIC ->
            forall typeId', register b ref typeId' s' = Abort AssertUnregistered s')).
Proof.
  intros Hchk header. split.
  - intros Hne. now apply register_rejects.
  - intros Hmagic Hheap Hid. eexists. split; [| split].
    + apply register_run. intros _. split; assumption.
    + simpl. fold header. rewrite load32_store32_same. now apply wrap32_small.
    + intros Hne typeId'. rewrite register_rejects.
      * destruct (Z.ltb_spec (HEAP_BASE b) ref); [reflexivity | lia].
      * assumption.
      * simpl. fold header. rewrite load32_store32_same, wrap32_small; assumption.
Qed.

(** C7. discard on a scratch object (a heap object, which a checked
    build asserts first) frees the block at the header address through
    the backing allocator; in a checked build discard on an object
    whose classId is not HEADER_MAGIC fails an assertion with the state
    untouched, so nothing has been freed. *)
Theorem discard_requires_scratch (s : State A) ref :
  let header := wrap32 (ref - HEADER_SIZE b) in
  (load32 (mem s) (header + HEADER_classId) = HEADER_MAGIC ->
   (ASC_NO_ASSERT b = false -> HEAP_BASE b < ref) ->
   discard b ref s
   = Ok tt (mkState (mem s) (mem_free header (heap s)) (calls s ++ [EFree header])))
  /\ (ASC_NO_ASSERT b = false ->
      load32 (mem s) (header + HEADER_classId) <> HEADER_MAGIC ->
      discard b ref s
      = Abort (if HEAP_BASE b <? ref then AssertUnregistered else AssertHeapObject) s).
Proof.
  intros header. split.
  - intros Hmagic Hheap. apply discard_run. intros Hchk. split; auto.
  - intros Hchk Hne. now apply discard_rejects.
Qed.

(** C10. reallocate to a size not larger than the current payloadSize
    returns the same reference, calls neither the backing allocator nor
    the collector, and changes nothing but the header's payloadSize
    field, wherever the object lies and whatever its size class. *)
Theorem reallocate_no_growth_frame (s : State A) ref newPayloadSize :
  let header := wrap32 (ref - HEADER_SIZE b) in
  0 <= newPayloadSize <= load32 (mem s) (header + HEADER_payloadSize) ->
  exists s',
    reallocate b ref newPayloadSize s = Ok ref s'
    /\ calls s' = calls s
    /\ heap s' = heap s
    /\ load32 (mem s') (header + HEADER_payloadSize) = newPayloadSize
    /\ forall x, ~ (header + HEADER_payloadSize <= x < header + HEADER_payloadSize + 4) ->
                 mem s' x = mem s x.
Proof.
  intros header [Hlo Hhi].
  pose proof (load32_range (mem s) (header + HEADER_payloadSize)) as Hr.
  eexists. split; [apply reallocate_no_growth_run; exact Hhi |].
  simpl. fold header. repeat split.
  - rewrite load32_store32_same. apply wrap32_small. lia.
  - intros x Hx. now apply store32_other.
Qed.

End RuntimeFacts.

Lemma adjust_size_class_witness :
  is_power_of_two (adjust plain_build 4)
  /\ 4 + HEADER_SIZE plain_build <= adjust plain_build 4
  /\ adjust plain_build 4 < 2 * (4 + HEADER_SIZE plain_build).
Proof.
  apply (adjust_size_class plain_build 4). vm_compute. split; discriminate.
Defined.

Lemma allocate_writes_header_witness :
  exists ref s',
    allocate plain_build 4 fresh_state = Ok ref s'
    /\ let header := wrap32 (ref - HEADER_SIZE plain_build) in
       load32 (mem s') (header + HEADER_classId) = HEADER_MAGIC
       /\ load32 (mem s') (header + HEADER_payloadSize) = 4
       /\ (ref_collect_defined plain_build = true ->
           load32 (mem s') (header + HEADER_reserved1) = 0
           /\ load32 (mem s') (header + HEADER_reserved2) = 0).
Proof.
  apply (allocate_writes_header plain_build fresh_state 4 48
           (arena.mkState 48 64 1 65536)); [lia | lia | reflexivity].
Defined.

Lemma register_not_idempotent_witness :
  register collector_build 64 7 registered_state
  = Abort AssertUnregistered registered_state
  /\ exists s',
       register plain_build 56 1 scratch_state = Ok 56 s'
       /\ load32 (mem s') (wrap32 (56 - HEADER_SIZE plain_build) + HEADER_classId) = 1
       /\ (1 <> HEADER_MAGIC ->
           forall typeId', register plain_build 56 typeId' s' = Abort AssertUnregistered s').
Proof.
  split.
  - apply (register_not_idempotent collector_build registered_state 64 7);
      [reflexivity | vm_compute; discriminate].
  - apply (register_not_idempotent plain_build scratch_state 56 1);
      [reflexivity | reflexivity | reflexivity | lia].
Defined.

Lemma discard_requires_scratch_witness :
  discard plain_build 56 scratch_state
  = Ok tt (mkState (mem scratch_state)
                   (mem_free (wrap32 (56 - HEADER_SIZE plain_build)) (heap scratch_state))
                   (calls scratch_state
                    ++ [EFree (wrap32 (56 - HEADER_SIZE plain_build))]))
  /\ discard collector_build 64 registered_state = Abort AssertUnregistered registered_state.
Proof.
  split.
  - apply (discard_requires_scratch plain_build scratch_state 56);
      [reflexivity | reflexivity].
  - apply (discard_requires_scratch collector_build registered_state 64);
      [reflexivity | vm_compute; discriminate].
Defined.

Lemma reallocate_no_growth_frame_witness :
  exists s',
    reallocate plain_build 56 3 scratch_state = Ok 56 s'
    /\ calls s' = calls scratch_state
    /\ heap s' = heap scratch_state
    /\ load32 (mem s') (wrap32 (56 - HEADER_SIZE plain_build) + HEADER_payloadSize) = 3
    /\ forall x,
         ~ (wrap32 (56 - HEADER_SIZE plain_build) + HEADER_payloadSize <= x
            < wrap32 (56 - HEADER_SIZE plain_build) + HEADER_payloadSize + 4) ->
         mem s' x = mem scratch_state x.
Proof.
  apply (reallocate_no_growth_frame plain_build scratch_state 56 3).
  vm_compute. split; discriminate.
Defined.

(* ================================================================== *)
(** ** Growing an object *)

Section GrowFacts.
Context {A : Type} {allocator : Allocator A}.
Variable b : Build.

(** C4. Grow round-trip.  Let ref = allocate(n) and let bytes be written
    into payload positions [0, n).  For n < n2 within MAX_BYTELENGTH,
    and a backing allocator that hands out blocks inside the address
    space, at or above HEAP_BASE and apart from the block still in use,
    reallocate(ref, n2) returns a reference through which positions
    [0, n) read as before the call and positions [n, n2) read as zero. *)
Theorem grow_round_trip (s0 s1 s2 : State A) n n2 ref :
  0 <= n < n2 -> n2 <= MAX_BYTELENGTH b ->
  allocate b n s0 = Ok ref s1 ->
  (forall p h, mem_allocate (adjust b n) (heap s0) = Some (p, h) ->
               0 <= p /\ HEAP_BASE b <= p /\ p + adjust b n < 2 ^ 32) ->
  heap s2 = heap s1 ->
  (forall x, ~ (ref <= x < ref + n) -> mem s2 x = mem s1 x) ->
  (forall p h, mem_allocate (adjust b n2) (heap s2) = Some (p, h) ->
               0 <= p /\ p + adjust b n2 < 2 ^ 32
               /\ (p + adjust b n2 <= ref - HEADER_SIZE b
                   \/ ref - HEADER_SIZE b + adjust b n <= p)) ->
  mem_allocate (adjust b n2) (heap s2) <> None ->
  exists ref' s3,
    reallocate b ref n2 s2 = Ok ref' s3
    /\ (forall i, 0 <= i < n -> load8 (mem s3) (ref' + i) = load8 (mem s2) (ref + i))
    /\ (forall i, n <= i < n2 -> load8 (mem s3) (ref' + i) = 0).
Proof.
  intros Hn Hn2 Halloc Hfirst Hheap Hwrites Hsecond Hsome.
  pose proof (HEADER_SIZE_cases b) as HH.
  unfold MAX_BYTELENGTH, MAX_SIZE_32 in Hn2.
  destruct (mem_allocate (adjust b n) (heap s0)) as [[p h] |] eqn:Hal;
    [| rewrite (allocate_out_of_memory b s0 n Hal) in Halloc; discriminate].
  destruct (allocate_run b s0 n p h Hal) as (m1 & Hrun & Hcid & Hsize & _ & _).
  rewrite Hrun in Halloc. injection Halloc as Href Hs1.
  destruct (Hfirst p h eq_refl) as (Hp0 & Hbase & Hspace).
  destruct (adjust_bounds b n) as (Hfit & _ & _); [lia | lia |].
  destruct (adjust_bounds b n2) as (Hfit2 & _ & _); [lia | lia |].
  rewrite wrap32_small in Href by lia.
  assert (Hhdr : wrap32 (ref - HEADER_SIZE b) = p).
  { subst ref. replace (p + HEADER_SIZE b - HEADER_SIZE b) with p by lia.
    apply wrap32_small. lia. }
  assert (Hsize2 : load32 (mem s2) (wrap32 (ref - HEADER_SIZE b) + HEADER_payloadSize) = n).
  { rewrite Hhdr. rewrite <- (wrap32_small n) by lia. rewrite <- Hsize.
    apply load32_ext. intros x Hx. rewrite Hwrites.
    - now rewrite <- Hs1.
    - unfold HEADER_payloadSize in Hx. lia. }
  assert (Hcid2 : load32 (mem s2) (wrap32 (ref - HEADER_SIZE b) + HEADER_classId)
                  = HEADER_MAGIC).
  { rewrite Hhdr. rewrite <- Hcid.
    apply load32_ext. intros x Hx. rewrite Hwrites.
    - now rewrite <- Hs1.
    - unfold HEADER_classId in Hx. lia. }
  destruct (Z.le_gt_cases (adjust b n2) (adjust b n)) as [Hin | Hout].
  - (* the grown payload still fits the block *)
    pose proof (reallocate_in_place_run b s2 ref n2) as Hplace.
    cbv zeta in Hplace. rewrite Hsize2 in Hplace.
    exists ref. eexists. split; [apply Hplace; lia |]. cbn [mem].
    rewrite Hhdr. rewrite !wrap32_small by lia.
    unfold load8, HEADER_payloadSize. split; intros i Hi.
    + rewrite store32_other, fill_bytes_outside by lia. reflexivity.
    + rewrite store32_other, fill_bytes_inside by lia. reflexivity.
  - (* the object moves to a fresh block *)
    destruct (mem_allocate (adjust b n2) (heap s2)) as [[p' h'] |] eqn:Hal2;
      [| contradiction].
    destruct (Hsecond p' h' eq_refl) as (Hp0' & Hspace' & Hapart).
    pose proof (reallocate_move_run b s2 ref n2 p' h') as Hmove.
    cbv zeta in Hmove. rewrite Hsize2 in Hmove.
    destruct Hmove as (m3 & Hrun3 & _ & _ & _ & Hkept & Hzero & _);
      try lia; try assumption.
    + destruct (Z.ltb_spec (HEAP_BASE b) ref); unfold select; lia.
    + exists (p' + HEADER_SIZE b). eexists. split; [exact Hrun3 |]. cbn [mem].
      unfold load8. split; intros i Hi.
      * now rewrite Hkept.
      * now rewrite Hzero.
Qed.

(** C1. When reallocate moves an object that is already registered, in a
    build with a collector, it allocates the new block, copies the
    payload, zero-fills the remainder and then calls the register hook
    with the reference it was given, the old one, and not with the
    reference of the new block, which is the one it returns. *)
Theorem reallocate_move_registers_old_reference
    (s : State A) ref newPayloadSize p h :
  let header := wrap32 (ref - HEADER_SIZE b) in
  let payloadSize := load32 (mem s) (header + HEADER_payloadSize) in
  let classId := load32 (mem s) (header + HEADER_classId) in
  let newRef := p + HEADER_SIZE b in
  ref_collect_defined b = true ->
  classId <> HEADER_MAGIC ->
  payloadSize < newPayloadSize ->
  select (adjust b payloadSize) 0 (HEAP_BASE b <? ref) < adjust b newPayloadSize ->
  mem_allocate (adjust b newPayloadSize) (heap s) = Some (p, h) ->
  0 <= p -> newRef + newPayloadSize <= 2 ^ 32 ->
  HEADER_SIZE b <= ref -> ref + payloadSize <= 2 ^ 32 ->
  newRef + newPayloadSize <= ref - HEADER_SIZE b \/ ref + payloadSize <= p ->
  exists s',
    reallocate b ref newPayloadSize s = Ok newRef s'
    /\ newRef <> ref
    /\ calls s'
       = calls s
         ++ [EAllocate (adjust b newPayloadSize) p;
             ECopy newRef ref payloadSize;
             EFill (newRef + payloadSize) 0 (newPayloadSize - payloadSize);
             ERegister ref].
Proof.
  intros header payloadSize classId newRef Hgc Hreg Hlt Hmove Hal Hp Hnew Href Hold Hapart.
  pose proof (HEADER_SIZE_cases b) as HH.
  pose proof (load32_range (mem s) (header + HEADER_payloadSize)) as Hn.
  fold payloadSize in Hn.
  destruct (reallocate_move_run b s ref newPayloadSize p h) as (m' & Hrun & _);
    try assumption.
  - intros _ Hscratch. contradiction.
  - fold header payloadSize classId newRef in Hrun.
    destruct (Z.eqb_spec classId HEADER_MAGIC) as [? | _]; [contradiction |].
    rewrite Hgc in Hrun.
    eexists. split; [exact Hrun |]. split; [unfold newRef; lia | reflexivity].
Qed.

End GrowFacts.

Lemma grow_round_trip_witness :
  exists ref' s3,
    reallocate plain_build 56 100 written_state = Ok ref' s3
    /\ (forall i, 0 <= i < 4 ->
        load8 (mem s3) (ref' + i) = load8 (mem written_state) (56 + i))
    /\ (forall i, 4 <= i < 100 -> load8 (mem s3) (ref' + i) = 0).
Proof.
  apply (grow_round_trip plain_build fresh_state scratch_state written_state 4 100 56).
  - lia.
  - vm_compute. discriminate.
  - vm_compute. reflexivity.
  - intros p h H. vm_compute in H. injection H as Hp Hh. subst p h.
    vm_compute. repeat split; discriminate.
  - reflexivity.
  - intros x Hx. unfold written_state. cbn [mem]. apply store32_other. lia.
  - intros p h H. vm_compute in H. injection H as Hp Hh. subst p h.
    vm_compute. repeat split; try discriminate. right. discriminate.
  - vm_compute. discriminate.
Defined.

Lemma reallocate_move_registers_old_reference_witness :
  exists s',
    reallocate collector_build 64 100 registered_state = Ok 96 s'
    /\ 96 <> 64
    /\ calls s'
       = calls registered_state
         ++ [EAllocate 128 80; ECopy 96 64 4; EFill 100 0 96; ERegister 64].
Proof.
  apply (reallocate_move_registers_old_reference collector_build registered_state
           64 100 80 (arena.mkState 48 208 1 65536)).
  - reflexivity.
  - vm_compute. discriminate.
  - vm_compute. reflexivity.
  - vm_compute. reflexivity.
  - vm_compute. reflexivity.
  - lia.
  - vm_compute. discriminate.
  - vm_compute. discriminate.
  - vm_compute. discriminate.
  - right. vm_compute. discriminate.
Defined.

(* ================================================================== *)
(** ** Array construction *)

Lemma bind_ok {A X Y} (m : M A X) (k : X -> M A Y) s x s' :
  m s = Ok x s' -> bind m k s = k x s'.
Proof. intros H. unfold bind. now rewrite H. Qed.

Lemma shl32_range x k : 0 <= shl32 x k < 2 ^ 32.
Proof. apply wrap32_range. Qed.

Section MakeArrayFacts.
Context {A : Type} {allocator : Allocator A}.
Variable b : Build.

(** What [makeArray] does once the backing allocator has handed out the
    array's block at [p1] and then the buffer's block at [p2]. *)
Lemma makeArray_run (s : State A) capacity cid alignLog2 source p1 h1 p2 h2 :
  let bufferSize := shl32 capacity alignLog2 in
  let array := p1 + HEADER_SIZE b in
  let buffer := p2 + HEADER_SIZE b in
  mem_allocate (adjust b offsetof_Array) (heap s) = Some (p1, h1) ->
  mem_allocate (adjust b bufferSize) h1 = Some (p2, h2) ->
  0 <= p1 -> array < 2 ^ 32 -> 0 <= p2 -> buffer < 2 ^ 32 ->
  (ASC_NO_ASSERT b = false -> HEAP_BASE b < array /\ HEAP_BASE b < buffer) ->
  exists m',
    makeArray b capacity cid alignLog2 source s
    = Ok array
         (mkState m' h2
            (calls s
             ++ [EAllocate (adjust b offsetof_Array) p1]
             ++ (if ref_register_defined b then [ERegister array] else [])
             ++ [EAllocate (adjust b bufferSize) p2]
             ++ (if ref_register_defined b then [ERegister buffer] else [])
             ++ (if ref_link_defined b then [ELink buffer array] else [])
             ++ (if source =? 0 then [] else [ECopy buffer source bufferSize])))
    /\ (array + offsetof_Array <= p2 \/ buffer + bufferSize <= p1 ->
        0 <= capacity < 2 ^ 32 -> source = 0 ->
        load32 m' (array + ArrayBufferView_dataStart) = buffer
        /\ load32 m' (p2 + HEADER_payloadSize) = bufferSize
        /\ load32 m' (array + Array_length_) = capacity
        /\ forall i, 0 <= i < bufferSize -> m' (buffer + i) = mem s (buffer + i)).
Proof.
  intros bufferSize array buffer Hal1 Hal2 Hp1 Harr Hp2 Hbuf Hheap.
  pose proof (HEADER_SIZE_cases b) as HH.
  pose proof (shl32_range capacity alignLog2) as Hsize. fold bufferSize in Hsize.
  assert (Hhdr1 : wrap32 (array - HEADER_SIZE b) = p1).
  { unfold array. replace (p1 + HEADER_SIZE b - HEADER_SIZE b) with p1 by lia.
    apply wrap32_small. lia. }
  assert (Hhdr2 : wrap32 (buffer - HEADER_SIZE b) = p2).
  { unfold buffer. replace (p2 + HEADER_SIZE b - HEADER_SIZE b) with p2 by lia.
    apply wrap32_small. lia. }
  destruct (allocate_run b s offsetof_Array p1 h1 Hal1)
    as (m1 & Hrun1 & Hcid1 & _ & _ & Hframe1).
  rewrite wrap32_small in Hrun1 by (fold array; lia). fold array in Hrun1.
  set (s1 := mkState m1 h1 (calls s ++ [EAllocate (adjust b offsetof_Array) p1])) in *.
  assert (Hreg1 : register b array cid s1 = Ok array
            (mkState (store32 m1 (p1 + HEADER_classId) cid) h1
               (calls s1 ++ if ref_register_defined b then [ERegister array] else []))).
  { rewrite register_run; cbn [mem heap calls]; rewrite Hhdr1; [reflexivity |].
    intros Hchk. split; [apply (Hheap Hchk) | exact Hcid1]. }
  set (s2 := mkState (store32 m1 (p1 + HEADER_classId) cid) h1
               (calls s1 ++ if ref_register_defined b then [ERegister array] else [])) in *.
  destruct (allocate_run b s2 bufferSize p2 h2 Hal2)
    as (m3 & Hrun3 & Hcid3 & Hsz3 & _ & Hframe3).
  rewrite wrap32_small in Hrun3 by (fold buffer; lia). fold buffer in Hrun3.
  set (s3 := mkState m3 h2 (calls s2 ++ [EAllocate (adjust b bufferSize) p2])) in *.
  assert (Hreg2 : register b buffer (classId_ArrayBuffer b) s3 = Ok buffer
            (mkState (store32 m3 (p2 + HEADER_classId) (classId_ArrayBuffer b)) h2
               (calls s3 ++ if ref_register_defined b then [ERegister buffer] else []))).
  { rewrite register_run; cbn [mem heap calls]; rewrite Hhdr2; [reflexivity |].
    intros Hchk. split; [apply (Hheap Hchk) | exact Hcid3]. }
  assert (Hframe3' : forall x, ~ (p2 <= x < p2 + HEADER_SIZE b) ->
                               m3 x = store32 m1 (p1 + HEADER_classId) cid x)
    by exact Hframe3.
  unfold makeArray. fold bufferSize.
  rewrite (bind_ok _ _ _ _ _ Hrun1), (bind_ok _ _ _ _ _ Hreg1),
          (bind_ok _ _ _ _ _ Hrun3), (bind_ok _ _ _ _ _ Hreg2).
  unfold store_managed_field, s3, s2, s1.
  unfold ArrayBufferView_data, ArrayBufferView_dataStart, ArrayBufferView_dataLength,
    Array_length_, offsetof_Array, HEADER_classId, HEADER_payloadSize in *.
  destruct (ref_link_defined b); destruct (Z.eqb_spec source 0) as [Hnull | Hsrc];
    run_monad; rewrite <- ?app_assoc; rewrite ?app_nil_r; simpl;
    (eexists; split; [reflexivity |]);
    intros Hapart Hcap Hsource; try contradiction;
    (repeat split;
     [ rewrite !load32_store32_other by lia;
       rewrite load32_store32_same; apply wrap32_small; lia
     | rewrite !load32_store32_other by lia;
       rewrite Hsz3; apply wrap32_small; lia
     | rewrite load32_store32_same; apply wrap32_small; lia
     | intros i Hi; rewrite !store32_other by lia;
       rewrite Hframe3' by lia;
       rewrite store32_other by lia; rewrite Hframe1 by lia; reflexivity ]).
Qed.

(** C2 (amended). In a build with a collector, makeArray's calls are, in
    this order: the array's allocation, one register call for the
    array, the buffer's allocation, one register call for the buffer,
    one link(buffer, array) call, and, when a source is given, the copy
    into the buffer.  The buffer is allocated only after the array has
    been registered. *)
Theorem makeArray_call_order
    (s : State A) capacity typeId alignLog2 source p1 h1 p2 h2 :
  let bufferSize := shl32 capacity alignLog2 in
  let array := p1 + HEADER_SIZE b in
  let buffer := p2 + HEADER_SIZE b in
  ref_register_defined b = true -> ref_link_defined b = true ->
  mem_allocate (adjust b offsetof_Array) (heap s) = Some (p1, h1) ->
  mem_allocate (adjust b bufferSize) h1 = Some (p2, h2) ->
  0 <= p1 -> array < 2 ^ 32 -> 0 <= p2 -> buffer < 2 ^ 32 ->
  (ASC_NO_ASSERT b = false -> HEAP_BASE b < array /\ HEAP_BASE b < buffer) ->
  exists s',
    makeArray b capacity typeId alignLog2 source s = Ok array s'
    /\ calls s'
       = calls s
         ++ [EAllocate (adjust b offsetof_Array) p1;
             ERegister array;
             EAllocate (adjust b bufferSize) p2;
             ERegister buffer;
             ELink buffer array]
         ++ (if source =? 0 then [] else [ECopy buffer source bufferSize]).
Proof.
  intros bufferSize array buffer Hreg Hlink Hal1 Hal2 Hp1 Harr Hp2 Hbuf Hheap.
  destruct (makeArray_run s capacity typeId alignLog2 source p1 h1 p2 h2)
    as (m' & Hrun & _); try assumption.
  fold bufferSize array buffer in Hrun. rewrite Hreg, Hlink in Hrun.
  eexists. split; [exact Hrun | reflexivity].
Qed.

(** C9 (amended). makeArray(capacity=4, typeId, alignLog2=2, source=null)
    yields a buffer whose header payloadSize is 16 and an array whose
    length field is 4; the 16 payload bytes of the buffer are not
    written and read as they did in the block the backing allocator
    handed out. *)
Theorem makeArray_int32_scenario (s : State A) typeId p1 h1 p2 h2 :
  let array := p1 + HEADER_SIZE b in
  let buffer := p2 + HEADER_SIZE b in
  mem_allocate (adjust b offsetof_Array) (heap s) = Some (p1, h1) ->
  mem_allocate (adjust b 16) h1 = Some (p2, h2) ->
  0 <= p1 -> array < 2 ^ 32 -> 0 <= p2 -> buffer < 2 ^ 32 ->
  array + offsetof_Array <= p2 \/ buffer + 16 <= p1 ->
  (ASC_NO_ASSERT b = false -> HEAP_BASE b < array /\ HEAP_BASE b < buffer) ->
  exists s',
    makeArray b 4 typeId 2 0 s = Ok array s'
    /\ load32 (mem s') (array + ArrayBufferView_dataStart) = buffer
    /\ load32 (mem s') (wrap32 (buffer - HEADER_SIZE b) + HEADER_payloadSize) = 16
    /\ load32 (mem s') (array + Array_length_) = 4
    /\ forall i, 0 <= i < 16 ->
                 load8 (mem s') (buffer + i) = load8 (mem s) (buffer + i).
Proof.
  intros array buffer Hal1 Hal2 Hp1 Harr Hp2 Hbuf Hapart Hheap.
  pose proof (HEADER_SIZE_cases b) as HH.
  destruct (makeArray_run s 4 typeId 2 0 p1 h1 p2 h2)
    as (m' & Hrun & Hmem); try assumption.
  change (shl32 4 2) with 16 in *. fold array buffer in Hrun, Hmem.
  destruct Hmem as (Hstart & Hsize & Hlen & Hbytes); [assumption | lia | reflexivity |].
  eexists. split; [exact Hrun |]. cbn [mem].
  replace (wrap32 (buffer - HEADER_SIZE b)) with p2.
  - repeat split; try assumption.
    intros i Hi. unfold load8. now rewrite Hbytes.
  - unfold buffer. replace (p2 + HEADER_SIZE b - HEADER_SIZE b) with p2 by lia.
    symmetry. apply wrap32_small. lia.
Qed.

End MakeArrayFacts.

(** C2: on a fresh instance the register call for the array comes before
    the allocation of the buffer, so the allocations do not both precede
    the registrations. *)
Lemma makeArray_registers_before_second_allocation :
  ~ allocations_precede_registrations
      (calls (state_of (makeArray collector_build 4 3 2 0 fresh_state))).
Proof.
  intros H.
  assert (E : calls (state_of (makeArray collector_build 4 3 2 0 fresh_state))
              = [EAllocate 32 48; ERegister 64; EAllocate 32 80; ERegister 96;
                 ELink 96 64]) by (vm_compute; reflexivity).
  rewrite E in H.
  specialize (H 2%nat 1%nat 32 80 64 eq_refl eq_refl). lia.
Qed.

Lemma makeArray_call_order_witness :
  exists s',
    makeArray collector_build 4 3 2 0 fresh_state = Ok 64 s'
    /\ calls s'
       = [EAllocate 32 48; ERegister 64; EAllocate 32 80; ERegister 96; ELink 96 64].
Proof.
  apply (makeArray_call_order collector_build fresh_state 4 3 2 0
           48 (arena.mkState 48 80 1 65536) 80 (arena.mkState 48 112 1 65536)).
  - reflexivity.
  - reflexivity.
  - vm_compute. reflexivity.
  - vm_compute. reflexivity.
  - lia.
  - vm_compute. reflexivity.
  - lia.
  - vm_compute. reflexivity.
  - intros _. vm_compute. split; reflexivity.
Defined.

(** C9: with a stale byte in the block handed out for the buffer, the
    buffer's payload does not read as zero after makeArray. *)
Lemma makeArray_buffer_keeps_stale_bytes :
  exists array s',
    makeArray collector_build 4 3 2 0 stale_state = Ok array s'
    /\ ~ (forall i, 0 <= i < 16 ->
          load8 (mem s') (load32 (mem s') (array + ArrayBufferView_dataStart) + i) = 0).
Proof.
  eexists. eexists. split; [vm_compute; reflexivity |].
  intros H. specialize (H 4 ltac:(lia)). vm_compute in H. discriminate.
Qed.

Lemma makeArray_int32_scenario_witness :
  exists s',
    makeArray collector_build 4 3 2 0 stale_state = Ok 64 s'
    /\ load32 (mem s') (64 + ArrayBufferView_dataStart) = 96
    /\ load32 (mem s') (wrap32 (96 - HEADER_SIZE collector_build) + HEADER_payloadSize) = 16
    /\ load32 (mem s') (64 + Array_length_) = 4
    /\ forall i, 0 <= i < 16 ->
                 load8 (mem s') (96 + i) = load8 (mem stale_state) (96 + i).
Proof.
  apply (makeArray_int32_scenario collector_build stale_state 3
           48 (arena.mkState 48 80 1 65536) 80 (arena.mkState 48 112 1 65536)).
  - vm_compute. reflexivity.
  - vm_compute. reflexivity.
  - lia.
  - vm_compute. reflexivity.
  - lia.
  - vm_compute. reflexivity.
  - left. vm_compute. discriminate.
  - intros _. vm_compute. split; reflexivity.
Defined.

(* ================================================================== *)
(** ** The collector interface *)

(** C8. A hook of [gc] whose collector function is not defined fails
    fatally with a diagnostic naming it, for register, link and mark, and
    only records a warning and continues for collect; a hook whose
    collector function is defined forwards the call to it.  So in the
    build without a collector the first three are fatal and collect
    warns, and in the build with a collector all four forward. *)
Theorem gc_hooks_by_build (h : gc.Hooks) (ref parentRef : Z) (s : gc.State) :
  (gc.gc_register_defined h = false ->
   exists d, gc.register h ref s = gc.Fatal d /\ gc.names d "gc.register")
  /\ (gc.gc_link_defined h = false ->
      exists d, gc.link h ref parentRef s = gc.Fatal d /\ gc.names d "gc.link")
  /\ (gc.gc_mark_defined h = false ->
      exists d, gc.mark h ref s = gc.Fatal d /\ gc.names d "gc.mark")
  /\ (gc.gc_collect_defined h = false ->
      gc.collect h s
      = gc.Continues (gc.mkState (gc.forwarded s)
                        (gc.warnings s ++ ["missing implementation: gc.collect"%string])))
  /\ (gc.gc_register_defined h = true ->
      gc.register h ref s
      = gc.Continues (gc.mkState (gc.forwarded s ++ [gc.__gc_register ref]) (gc.warnings s)))
  /\ (gc.gc_link_defined h = true ->
      gc.link h ref parentRef s
      = gc.Continues (gc.mkState (gc.forwarded s ++ [gc.__gc_link ref parentRef])
                        (gc.warnings s)))
  /\ (gc.gc_mark_defined h = true ->
      gc.mark h ref s
      = gc.Continues (gc.mkState (gc.forwarded s ++ [gc.__gc_mark ref]) (gc.warnings s)))
  /\ (gc.gc_collect_defined h = true ->
      gc.collect h s
      = gc.Continues (gc.mkState (gc.forwarded s ++ [gc.__gc_collect]) (gc.warnings s))).
Proof.
  unfold gc.register, gc.link, gc.mark, gc.collect, gc.ERROR, gc.WARNING, gc.forward.
  repeat split; intros Hdef; rewrite Hdef; try reflexivity.
  - eexists. split; [reflexivity |]. now exists "missing implementation: "%string.
  - eexists. split; [reflexivity |]. now exists "missing implementation: "%string.
  - eexists. split; [reflexivity |]. now exists "missing implementation: "%string.
Qed.

Lemma gc_hooks_by_build_witness :
  (exists d, gc.register gc.no_collector 64 (gc.mkState [] []) = gc.Fatal d
             /\ gc.names d "gc.register")
  /\ gc.collect gc.no_collector (gc.mkState [] [])
     = gc.Continues (gc.mkState [] ["missing implementation: gc.collect"%string])
  /\ gc.register gc.with_collector 64 (gc.mkState [] [])
     = gc.Continues (gc.mkState [gc.__gc_register 64] []).
Proof.
  split; [| split].
  - apply (gc_hooks_by_build gc.no_collector 64 0 (gc.mkState [] [])). reflexivity.
  - apply (gc_hooks_by_build gc.no_collector 64 0 (gc.mkState [] [])). reflexivity.
  - apply (gc_hooks_by_build gc.with_collector 64 0 (gc.mkState [] [])). reflexivity.
Defined.

(* ================================================================== *)
(** ** Further properties of the size classes *)

Lemma adjust_positive b payloadSize : 0 < adjust b payloadSize.
Proof.
  unfold adjust, shl32.
  set (k := wrap32 (32 - clz32 (wrap32 (payloadSize + HEADER_SIZE b - 1)))).
  change 31 with (Z.ones 5). rewrite Z.land_ones by lia.
  assert (Hk : 0 <= k mod 2 ^ 5 < 32) by (apply Z.mod_pos_bound; lia).
  rewrite Z.shiftl_1_l.
  assert (Hp : 0 < 2 ^ (k mod 2 ^ 5) < 2 ^ 32).
  { split; [apply Z.pow_pos_nonneg; lia | apply Z.pow_lt_mono_r; lia]. }
  rewrite wrap32_small; lia.
Qed.

(** X1. [adjust] rounds up to the least power of two: every power of two
    that holds payloadSize + HEADER_SIZE is at least adjust(payloadSize). *)
Theorem adjust_least_power_of_two (b : Build) (payloadSize k : Z) :
  0 <= payloadSize <= MAX_BYTELENGTH b -> 0 <= k ->
  payloadSize + HEADER_SIZE b <= 2 ^ k ->
  adjust b payloadSize <= 2 ^ k.
Proof.
  intros [Hlo Hhi] Hk Hfits. unfold MAX_BYTELENGTH, MAX_SIZE_32 in Hhi.
  pose proof (HEADER_SIZE_cases b) as HH.
  rewrite adjust_log2 by lia.
  set (x := payloadSize + HEADER_SIZE b - 1) in *.
  assert (Hx : 0 < x) by (unfold x; lia).
  assert (Hlog : Z.log2 x < k) by (apply Z.log2_lt_pow2; lia).
  apply Z.pow_le_mono_r; lia.
Qed.

Lemma adjust_oversize b payloadSize :
  MAX_BYTELENGTH b < payloadSize -> payloadSize + HEADER_SIZE b <= 2 ^ 31 ->
  adjust b payloadSize = 2 ^ 31.
Proof.
  pose proof (HEADER_SIZE_cases b) as HH.
  intros Hlo Hhi. unfold MAX_BYTELENGTH, MAX_SIZE_32 in Hlo.
  rewrite adjust_log2 by lia.
  rewrite (Z.log2_unique (payloadSize + HEADER_SIZE b - 1) 30); [reflexivity | lia |].
  change (2 ^ 30) with 1073741824. change (2 ^ (30 + 1)) with 2147483648. lia.
Qed.

(** X2. Past MAX_BYTELENGTH [adjust] no longer covers the request: up to
    2^31 bytes of payload and header it answers 2^31, which exceeds
    MAX_SIZE_32, and from there to 2^32 the shift count wraps and it
    answers 1. *)
Theorem adjust_beyond_max (b : Build) (payloadSize : Z) :
  (MAX_BYTELENGTH b < payloadSize -> payloadSize + HEADER_SIZE b <= 2 ^ 31 ->
   adjust b payloadSize = 2 ^ 31)
  /\ (2 ^ 31 < payloadSize + HEADER_SIZE b <= 2 ^ 32 -> adjust b payloadSize = 1).
Proof.
  pose proof (HEADER_SIZE_cases b) as HH. split.
  - apply adjust_oversize.
  - intros Hx. unfold adjust.
    rewrite (wrap32_small (payloadSize + HEADER_SIZE b - 1)) by lia.
    unfold clz32.
    destruct (Z.eqb_spec (payloadSize + HEADER_SIZE b - 1) 0) as [E | _]; [lia |].
    rewrite (Z.log2_unique (payloadSize + HEADER_SIZE b - 1) 31); [reflexivity | lia |].
    change (2 ^ 31) with 2147483648. change (2 ^ (31 + 1)) with 4294967296. lia.
Qed.

(** X3. [adjust] is monotone over the sizes it covers: a smaller payload
    never gets a larger block. *)
Theorem adjust_monotone (b : Build) (p q : Z) :
  0 <= p <= q -> q + HEADER_SIZE b <= 2 ^ 31 -> adjust b p <= adjust b q.
Proof.
  intros Hpq Hmax. rewrite !adjust_log2 by lia.
  pose proof (HEADER_SIZE_cases b) as HH.
  pose proof (Z.log2_le_mono (p + HEADER_SIZE b - 1) (q + HEADER_SIZE b - 1)).
  apply Z.pow_le_mono_r; lia.
Qed.

Lemma adjust_monotone_witness : adjust plain_build 4 <= adjust plain_build 100.
Proof.
  apply (adjust_monotone plain_build 4 100);
    [vm_compute; split; discriminate | vm_compute; discriminate].
Defined.

Lemma adjust_least_power_of_two_witness : adjust plain_build 9 <= 2 ^ 5.
Proof.
  apply (adjust_least_power_of_two plain_build 9 5);
    [vm_compute; split; discriminate | lia | vm_compute; discriminate].
Defined.

Lemma adjust_beyond_max_witness :
  adjust plain_build (MAX_BYTELENGTH plain_build + 1) = 2 ^ 31
  /\ adjust plain_build (2 ^ 31) = 1.
Proof.
  split.
  - apply (adjust_beyond_max plain_build (MAX_BYTELENGTH plain_build + 1));
      vm_compute; [reflexivity | discriminate].
  - apply (adjust_beyond_max plain_build (2 ^ 31)).
    vm_compute. split; [reflexivity | discriminate].
Defined.

(* ================================================================== *)
(** ** Further properties of allocate, register and discard *)

Section LifecycleFacts.
Context {A : Type} {allocator : Allocator A}.
Variable b : Build.

(** X4. [allocate] writes the header and nothing else: every byte
    outside the HEADER_SIZE bytes at the head of the block, the payload
    included, is left as it was; the backing allocator is called once. *)
Theorem allocate_touches_only_header (s : State A) n p h :
  mem_allocate (adjust b n) (heap s) = Some (p, h) ->
  exists s',
    allocate b n s = Ok (wrap32 (p + HEADER_SIZE b)) s'
    /\ heap s' = h
    /\ calls s' = calls s ++ [EAllocate (adjust b n) p]
    /\ forall x, ~ (p <= x < p + HEADER_SIZE b) -> mem s' x = mem s x.
Proof.
  intros Hal.
  destruct (allocate_run b s n p h Hal) as (m' & Hrun & _ & _ & _ & Hframe).
  eexists. split; [exact Hrun |]. cbn [mem heap calls]. auto.
Qed.

(** X5. Whatever [register] finds, when it returns it returns the
    reference it was given, has changed only the four bytes of the
    header's classId, has left the backing allocator alone, and has
    called the collector's register hook once if the build has one and
    not at all otherwise. *)
Theorem register_frame (s s' : State A) ref typeId r :
  register b ref typeId s = Ok r s' ->
  let header := wrap32 (ref - HEADER_SIZE b) in
  r = ref
  /\ heap s' = heap s
  /\ calls s' = calls s ++ (if ref_register_defined b then [ERegister ref] else [])
  /\ forall x, ~ (header + HEADER_classId <= x < header + HEADER_classId + 4) ->
               mem s' x = mem s x.
Proof.
  intros Hrun header.
  assert (Hpre : ASC_NO_ASSERT b = false ->
                 HEAP_BASE b < ref
                 /\ load32 (mem s) (header + HEADER_classId) = HEADER_MAGIC).
  { intros Hchk. revert Hrun. unfold register, assert. rewrite Hchk. simpl.
    destruct (Z.ltb_spec (HEAP_BASE b) ref); run_monad; [| discriminate].
    fold header.
    destruct (Z.eqb_spec (load32 (mem s) (header + HEADER_classId)) HEADER_MAGIC);
      [auto | discriminate]. }
  rewrite (register_run b s ref typeId Hpre) in Hrun.
  injection Hrun as Hr Hs. subst r s'. cbn [mem heap calls]. fold header.
  repeat split. intros x Hx. now apply store32_other.
Qed.

(** X6. In a checked build neither [register] nor [discard] accepts a
    reference at or below HEAP_BASE: both stop at the heap-object
    assertion, before the header is read, and change nothing. *)
Theorem checked_build_rejects_static_objects (s : State A) ref typeId :
  ASC_NO_ASSERT b = false -> ref <= HEAP_BASE b ->
  register b ref typeId s = Abort AssertHeapObject s
  /\ discard b ref s = Abort AssertHeapObject s.
Proof.
  intros Hchk Hstatic. unfold register, discard, assert. rewrite Hchk. simpl.
  destruct (Z.ltb_spec (HEAP_BASE b) ref); [lia |]. split; reflexivity.
Qed.

(** X7. allocate followed by discard hands back to the backing allocator
    exactly the address it had handed out. *)
Theorem allocate_then_discard (s : State A) n p h :
  mem_allocate (adjust b n) (heap s) = Some (p, h) ->
  0 <= p -> p + HEADER_SIZE b < 2 ^ 32 ->
  (ASC_NO_ASSERT b = false -> HEAP_BASE b < p + HEADER_SIZE b) ->
  exists m',
    (ref <- allocate b n ;; discard b ref) s
    = Ok tt (mkState m' (mem_free p h)
                     (calls s ++ [EAllocate (adjust b n) p; EFree p])).
Proof.
  intros Hal Hp Hend Hheap.
  pose proof (HEADER_SIZE_cases b) as HH.
  destruct (allocate_run b s n p h Hal) as (m' & Hrun & Hcid & _).
  rewrite wrap32_small in Hrun by lia.
  assert (Hhdr : wrap32 (p + HEADER_SIZE b - HEADER_SIZE b) = p).
  { replace (p + HEADER_SIZE b - HEADER_SIZE b) with p by lia. apply wrap32_small. lia. }
  exists m'. rewrite (bind_ok _ _ _ _ _ Hrun).
  rewrite discard_run; cbn [mem heap calls]; rewrite Hhdr.
  - now rewrite <- app_assoc.
  - intros Hchk. split; [apply (Hheap Hchk) | exact Hcid].
Qed.

(** X8. In a checked build an object that has been registered under a
    type id cannot be discarded: allocate, register, discard stops at
    discard's assertion on classId, and nothing has been freed. *)
Theorem registered_object_cannot_be_discarded (s : State A) n typeId p h :
  ASC_NO_ASSERT b = false ->
  mem_allocate (adjust b n) (heap s) = Some (p, h) ->
  0 <= p -> p + HEADER_SIZE b < 2 ^ 32 -> HEAP_BASE b < p + HEADER_SIZE b ->
  0 <= typeId < 2 ^ 32 -> typeId <> HEADER_MAGIC ->
  exists m',
    (ref <- allocate b n ;; ref' <- register b ref typeId ;; discard b ref') s
    = Abort AssertUnregistered
        (mkState m' h
           (calls s ++ [EAllocate (adjust b n) p]
            ++ (if ref_register_defined b then [ERegister (p + HEADER_SIZE b)] else []))).
Proof.
  intros Hchk Hal Hp Hend Hheap Hid Hne.
  pose proof (HEADER_SIZE_cases b) as HH.
  destruct (allocate_run b s n p h Hal) as (m' & Hrun & Hcid & _).
  rewrite wrap32_small in Hrun by lia.
  assert (Hhdr : wrap32 (p + HEADER_SIZE b - HEADER_SIZE b) = p).
  { replace (p + HEADER_SIZE b - HEADER_SIZE b) with p by lia. apply wrap32_small. lia. }
  eexists. rewrite (bind_ok _ _ _ _ _ Hrun).
  erewrite bind_ok.
  2:{ apply register_run. cbn [mem]. rewrite Hhdr. intros _. split; assumption. }
  rewrite discard_rejects; cbn [mem heap calls]; rewrite ?Hhdr.
  - destruct (Z.ltb_spec (HEAP_BASE b) (p + HEADER_SIZE b)); [| lia].
    now rewrite <- app_assoc.
  - assumption.
  - rewrite load32_store32_same, wrap32_small; assumption.
Qed.

(** X9. With assertions compiled away nothing of the object's life cycle
    is enforced: allocate, register, a second register and a discard
    all go through; the second type id overwrites the first and the
    registered object is freed. *)
Theorem unchecked_build_enforces_nothing (s : State A) n typeId typeId' p h :
  ASC_NO_ASSERT b = true ->
  mem_allocate (adjust b n) (heap s) = Some (p, h) ->
  0 <= p -> p + HEADER_SIZE b < 2 ^ 32 ->
  exists m',
    (ref <- allocate b n ;;
     ref1 <- register b ref typeId ;;
     ref2 <- register b ref1 typeId' ;;
     discard b ref2 ;;
     ret ref2) s
    = Ok (p + HEADER_SIZE b)
         (mkState m' (mem_free p h)
            (calls s ++ [EAllocate (adjust b n) p]
             ++ (if ref_register_defined b then [ERegister (p + HEADER_SIZE b)] else [])
             ++ (if ref_register_defined b then [ERegister (p + HEADER_SIZE b)] else [])
             ++ [EFree p]))
    /\ load32 m' (p + HEADER_classId) = wrap32 typeId'.
Proof.
  intros Hchk Hal Hp Hend.
  pose proof (HEADER_SIZE_cases b) as HH.
  destruct (allocate_run b s n p h Hal) as (m' & Hrun & _).
  rewrite wrap32_small in Hrun by lia.
  assert (Hhdr : wrap32 (p + HEADER_SIZE b - HEADER_SIZE b) = p).
  { replace (p + HEADER_SIZE b - HEADER_SIZE b) with p by lia. apply wrap32_small. lia. }
  eexists. rewrite (bind_ok _ _ _ _ _ Hrun).
  erewrite bind_ok by (apply register_run; rewrite Hchk; discriminate).
  erewrite bind_ok by (apply register_run; rewrite Hchk; discriminate).
  erewrite bind_ok by (apply discard_run; rewrite Hchk; discriminate).
  cbn [mem heap calls]. rewrite Hhdr. unfold ret. split.
  - rewrite <- !app_assoc. reflexivity.
  - now rewrite load32_store32_same.
Qed.

End LifecycleFacts.

(** X10. On the arena allocator a request past MAX_BYTELENGTH, up to 2^31
    bytes of payload and header, is refused: allocate aborts and the
    state is as before. *)
Theorem allocate_beyond_max_is_refused (b : Build) (s : State arena.state) n :
  MAX_BYTELENGTH b < n -> n + HEADER_SIZE b <= 2 ^ 31 ->
  allocate b n s = Abort OutOfMemory s.
Proof.
  intros Hlo Hhi. apply allocate_out_of_memory.
  rewrite (adjust_oversize b n Hlo Hhi). reflexivity.
Qed.

Lemma allocate_touches_only_header_witness :
  exists s',
    allocate plain_build 4 fresh_state = Ok (wrap32 (48 + HEADER_SIZE plain_build)) s'
    /\ heap s' = arena.mkState 48 64 1 65536
    /\ calls s' = calls fresh_state ++ [EAllocate (adjust plain_build 4) 48]
    /\ forall x, ~ (48 <= x < 48 + HEADER_SIZE plain_build) ->
                 mem s' x = mem fresh_state x.
Proof.
  apply (allocate_touches_only_header plain_build fresh_state 4 48
           (arena.mkState 48 64 1 65536)).
  vm_compute. reflexivity.
Defined.

Lemma register_frame_witness :
  let s' := state_of (register collector_build 64 5
                        (state_of (allocate collector_build 4 fresh_state))) in
  let header := wrap32 (64 - HEADER_SIZE collector_build) in
  64 = 64
  /\ heap s' = heap (state_of (allocate collector_build 4 fresh_state))
  /\ calls s' = calls (state_of (allocate collector_build 4 fresh_state))
                ++ (if ref_register_defined collector_build then [ERegister 64] else [])
  /\ forall x, ~ (header + HEADER_classId <= x < header + HEADER_classId + 4) ->
               mem s' x = mem (state_of (allocate collector_build 4 fresh_state)) x.
Proof.
  apply (register_frame collector_build
           (state_of (allocate collector_build 4 fresh_state))
           (state_of (register collector_build 64 5
                        (state_of (allocate collector_build 4 fresh_state))))
           64 5 64).
  vm_compute. reflexivity.
Defined.

Lemma checked_build_rejects_static_objects_witness :
  register plain_build 24 9 static_state = Abort AssertHeapObject static_state
  /\ discard plain_build 24 static_state = Abort AssertHeapObject static_state.
Proof.
  apply (checked_build_rejects_static_objects plain_build static_state 24 9);
    [reflexivity | vm_compute; discriminate].
Defined.

Lemma allocate_then_discard_witness :
  exists m',
    (ref <- allocate plain_build 4 ;; discard plain_build ref) fresh_state
    = Ok tt (mkState m' (mem_free 48 (arena.mkState 48 64 1 65536))
                     (calls fresh_state
                      ++ [EAllocate (adjust plain_build 4) 48; EFree 48])).
Proof.
  apply (allocate_then_discard plain_build fresh_state 4 48
           (arena.mkState 48 64 1 65536)).
  - vm_compute. reflexivity.
  - lia.
  - vm_compute. reflexivity.
  - intros _. vm_compute. reflexivity.
Defined.

Lemma registered_object_cannot_be_discarded_witness :
  exists m',
    (ref <- allocate collector_build 4 ;;
     ref' <- register collector_build ref 5 ;;
     discard collector_build ref') fresh_state
    = Abort AssertUnregistered
        (mkState m' (arena.mkState 48 80 1 65536)
           (calls fresh_state ++ [EAllocate (adjust collector_build 4) 48]
            ++ (if ref_register_defined collector_build
                then [ERegister (48 + HEADER_SIZE collector_build)] else []))).
Proof.
  apply (registered_object_cannot_be_discarded collector_build fresh_state 4 5 48
           (arena.mkState 48 80 1 65536)).
  - reflexivity.
  - vm_compute. reflexivity.
  - lia.
  - vm_compute. reflexivity.
  - vm_compute. reflexivity.
  - lia.
  - vm_compute. discriminate.
Defined.

Lemma unchecked_build_enforces_nothing_witness :
  exists m',
    (ref <- allocate unchecked_build 4 ;;
     ref1 <- register unchecked_build ref 5 ;;
     ref2 <- register unchecked_build ref1 6 ;;
     discard unchecked_build ref2 ;;
     ret ref2) fresh_state
    = Ok (48 + HEADER_SIZE unchecked_build)
         (mkState m' (mem_free 48 (arena.mkState 48 64 1 65536))
            (calls fresh_state ++ [EAllocate (adjust unchecked_build 4) 48]
             ++ (if ref_register_defined unchecked_build
                 then [ERegister (48 + HEADER_SIZE unchecked_build)] else [])
             ++ (if ref_register_defined unchecked_build
                 then [ERegister (48 + HEADER_SIZE unchecked_build)] else [])
             ++ [EFree 48]))
    /\ load32 m' (48 + HEADER_classId) = wrap32 6.
Proof.
  apply (unchecked_build_enforces_nothing unchecked_build fresh_state 4 5 6 48
           (arena.mkState 48 64 1 65536)).
  - reflexivity.
  - vm_compute. reflexivity.
  - lia.
  - vm_compute. reflexivity.
Defined.

Lemma allocate_beyond_max_is_refused_witness :
  allocate plain_build (2 ^ 30) fresh_state = Abort OutOfMemory fresh_state.
Proof.
  apply (allocate_beyond_max_is_refused plain_build fresh_state (2 ^ 30));
    vm_compute; [reflexivity | discriminate].
Defined.

(* ================================================================== *)
(** ** Further properties of reallocate *)

Ltac mem_rw :=
  repeat first
    [ rewrite load32_store32_same
    | rewrite load32_store32_other by lia
    | rewrite load32_fill_other by lia
    | rewrite load32_copy_other by lia
    | rewrite store32_other by lia
    | rewrite fill_bytes_inside by lia
    | rewrite fill_bytes_outside by lia
    | rewrite copy_bytes_inside by lia
    | rewrite copy_bytes_outside by lia ].

Section ReallocateFacts.
Context {A : Type} {allocator : Allocator A}.
Variable b : Build.

(** X11. Growing a heap object within its size class happens in place:
    the same reference comes back, the backing allocator is not asked
    for memory, one fill zeroes exactly the newly exposed bytes, the
    header's payloadSize becomes the new size, and nothing else in
    memory changes. *)
Theorem reallocate_grows_in_place (s : State A) ref newPayloadSize :
  let header := wrap32 (ref - HEADER_SIZE b) in
  let payloadSize := load32 (mem s) (header + HEADER_payloadSize) in
  payloadSize < newPayloadSize ->
  HEAP_BASE b < ref ->
  adjust b newPayloadSize <= adjust b payloadSize ->
  HEADER_SIZE b <= ref -> ref + newPayloadSize <= 2 ^ 32 ->
  exists s',
    reallocate b ref newPayloadSize s = Ok ref s'
    /\ heap s' = heap s
    /\ calls s' = calls s ++ [EFill (ref + payloadSize) 0 (newPayloadSize - payloadSize)]
    /\ load32 (mem s') (header + HEADER_payloadSize) = newPayloadSize
    /\ (forall i, payloadSize <= i < newPayloadSize -> mem s' (ref + i) = 0)
    /\ (forall x, ~ (header + HEADER_payloadSize <= x < header + HEADER_payloadSize + 4) ->
                  ~ (ref + payloadSize <= x < ref + newPayloadSize) ->
                  mem s' x = mem s x).
Proof.
  intros header payloadSize Hlt Hheap Hfit Href Hend.
  pose proof (HEADER_SIZE_cases b) as HH.
  pose proof (load32_range (mem s) (header + HEADER_payloadSize)) as Hn.
  fold payloadSize in Hn.
  assert (Hhdr : header = ref - HEADER_SIZE b) by (apply wrap32_small; lia).
  pose proof (reallocate_in_place_run b s ref newPayloadSize) as Hrun.
  cbv zeta in Hrun. fold header payloadSize in Hrun.
  rewrite !wrap32_small in Hrun by lia.
  eexists. split; [apply Hrun; assumption |]. cbn [mem heap calls].
  unfold HEADER_payloadSize in *. repeat split.
  - rewrite load32_store32_same. apply wrap32_small. lia.
  - intros i Hi. now mem_rw.
  - intros x Hx Hy. now mem_rw.
Qed.

(** X12. Growing a scratch heap object past its size class moves it: one
    block is requested, the payload copied, the remainder zeroed, and
    the old block is handed back to the backing allocator at its header
    address.  The new object is scratch again, with the new size in its
    header, and every byte outside the new object reads as before. *)
Theorem reallocate_moves_scratch (s : State A) ref newPayloadSize p h :
  let header := wrap32 (ref - HEADER_SIZE b) in
  let payloadSize := load32 (mem s) (header + HEADER_payloadSize) in
  let newRef := p + HEADER_SIZE b in
  load32 (mem s) (header + HEADER_classId) = HEADER_MAGIC ->
  HEAP_BASE b < ref ->
  payloadSize < newPayloadSize ->
  adjust b payloadSize < adjust b newPayloadSize ->
  mem_allocate (adjust b newPayloadSize) (heap s) = Some (p, h) ->
  0 <= p -> newRef + newPayloadSize <= 2 ^ 32 ->
  HEADER_SIZE b <= ref -> ref + payloadSize <= 2 ^ 32 ->
  newRef + newPayloadSize <= ref - HEADER_SIZE b \/ ref + payloadSize <= p ->
  exists s',
    reallocate b ref newPayloadSize s = Ok newRef s'
    /\ heap s' = mem_free header h
    /\ calls s'
       = calls s
         ++ [EAllocate (adjust b newPayloadSize) p;
             ECopy newRef ref payloadSize;
             EFill (newRef + payloadSize) 0 (newPayloadSize - payloadSize);
             EFree header]
    /\ load32 (mem s') (p + HEADER_classId) = HEADER_MAGIC
    /\ load32 (mem s') (p + HEADER_payloadSize) = newPayloadSize
    /\ (forall i, 0 <= i < payloadSize -> mem s' (newRef + i) = mem s (ref + i))
    /\ (forall i, payloadSize <= i < newPayloadSize -> mem s' (newRef + i) = 0)
    /\ (forall x, ~ (p <= x < newRef + newPayloadSize) -> mem s' x = mem s x).
Proof.
  intros header payloadSize newRef Hscratch Hheap Hlt Hclass Hal Hp Hnew Href Hold Hapart.
  destruct (reallocate_move_run b s ref newPayloadSize p h)
    as (m' & Hrun & Hcid & Hsize & _ & Hkept & Hzero & Hframe); try assumption.
  - destruct (Z.ltb_spec (HEAP_BASE b) ref); unfold select; [assumption | lia].
  - auto.
  - fold header payloadSize newRef in Hrun, Hcid, Hsize, Hkept, Hzero, Hframe.
    rewrite Hscratch in Hrun, Hcid. change (HEADER_MAGIC =? HEADER_MAGIC) with true in Hrun.
    eexists. split; [exact Hrun |]. cbn [mem heap calls]. repeat split; assumption.
Qed.

(** X13. A registered object that moves is never handed back to the
    backing allocator, in any build; without a collector nothing at all
    is told about the old block, and every byte of it reads as before. *)
Theorem reallocate_never_frees_registered (s : State A) ref newPayloadSize p h :
  let header := wrap32 (ref - HEADER_SIZE b) in
  let payloadSize := load32 (mem s) (header + HEADER_payloadSize) in
  let newRef := p + HEADER_SIZE b in
  load32 (mem s) (header + HEADER_classId) <> HEADER_MAGIC ->
  payloadSize < newPayloadSize ->
  select (adjust b payloadSize) 0 (HEAP_BASE b <? ref) < adjust b newPayloadSize ->
  mem_allocate (adjust b newPayloadSize) (heap s) = Some (p, h) ->
  0 <= p -> newRef + newPayloadSize <= 2 ^ 32 ->
  HEADER_SIZE b <= ref -> ref + payloadSize <= 2 ^ 32 ->
  newRef + newPayloadSize <= ref - HEADER_SIZE b \/ ref + payloadSize <= p ->
  exists s',
    reallocate b ref newPayloadSize s = Ok newRef s'
    /\ heap s' = h
    /\ calls s'
       = calls s
         ++ [EAllocate (adjust b newPayloadSize) p;
             ECopy newRef ref payloadSize;
             EFill (newRef + payloadSize) 0 (newPayloadSize - payloadSize)]
         ++ (if ref_collect_defined b then [ERegister ref] else [])
    /\ (forall x, ~ (p <= x < newRef + newPayloadSize) -> mem s' x = mem s x).
Proof.
  intros header payloadSize newRef Hreg Hlt Hmove Hal Hp Hnew Href Hold Hapart.
  destruct (reallocate_move_run b s ref newPayloadSize p h)
    as (m' & Hrun & _ & _ & _ & _ & _ & Hframe); try assumption.
  - intros _ Hscratch. contradiction.
  - fold header payloadSize newRef in Hrun, Hframe.
    destruct (Z.eqb_spec (load32 (mem s) (header + HEADER_classId)) HEADER_MAGIC);
      [contradiction |].
    eexists. split; [exact Hrun |]. cbn [mem heap calls]. repeat split; assumption.
Qed.

Lemma reallocate_move_fails (s : State A) ref newPayloadSize :
  let header := wrap32 (ref - HEADER_SIZE b) in
  let payloadSize := load32 (mem s) (header + HEADER_payloadSize) in
  payloadSize < newPayloadSize ->
  select (adjust b payloadSize) 0 (HEAP_BASE b <? ref) < adjust b newPayloadSize ->
  mem_allocate (adjust b newPayloadSize) (heap s) = None ->
  reallocate b ref newPayloadSize s = Abort OutOfMemory s.
Proof.
  intros header payloadSize Hlt Hmove Hal.
  unfold reallocate. fold header. unfold load_u32 at 1, bind at 1. fold payloadSize.
  destruct (Z.ltb_spec payloadSize newPayloadSize); [| lia].
  destruct (Z.ltb_spec (select (adjust b payloadSize) 0 (HEAP_BASE b <? ref))
                       (adjust b newPayloadSize)); [| lia].
  unfold memory_allocate, bind at 2. unfold bind at 1. now rewrite Hal.
Qed.

(** X15. When a move is needed and the backing allocator has no block,
    reallocate aborts before touching anything. *)
Theorem reallocate_out_of_memory (s : State A) ref newPayloadSize :
  let header := wrap32 (ref - HEADER_SIZE b) in
  let payloadSize := load32 (mem s) (header + HEADER_payloadSize) in
  payloadSize < newPayloadSize ->
  select (adjust b payloadSize) 0 (HEAP_BASE b <? ref) < adjust b newPayloadSize ->
  mem_allocate (adjust b newPayloadSize) (heap s) = None ->
  reallocate b ref newPayloadSize s = Abort OutOfMemory s.
Proof.
  intros header payloadSize Hlt Hmove Hal.
  unfold reallocate. fold header. unfold load_u32 at 1, bind at 1. fold payloadSize.
  destruct (Z.ltb_spec payloadSize newPayloadSize); [| lia].
  destruct (Z.ltb_spec (select (adjust b payloadSize) 0 (HEAP_BASE b <? ref))
                       (adjust b newPayloadSize)); [| lia].
  unfold memory_allocate, bind at 2. unfold bind at 1. now rewrite Hal.
Qed.

(** X14. An object in static data always moves when it grows, whatever
    its size class: anything larger than its payloadSize makes
    reallocate ask the backing allocator for a block first, whether it
    then returns or stops at an assertion, and if there is no block
    reallocate aborts with the state untouched. *)
Theorem reallocate_static_object_always_moves (s : State A) ref newPayloadSize :
  let header := wrap32 (ref - HEADER_SIZE b) in
  let payloadSize := load32 (mem s) (header + HEADER_payloadSize) in
  ref <= HEAP_BASE b ->
  payloadSize < newPayloadSize ->
  match mem_allocate (adjust b newPayloadSize) (heap s) with
  | None => reallocate b ref newPayloadSize s = Abort OutOfMemory s
  | Some (p, h) =>
      exists rest,
        calls (state_of (reallocate b ref newPayloadSize s))
        = calls s ++ EAllocate (adjust b newPayloadSize) p :: rest
  end.
Proof.
  intros header payloadSize Hstatic Hlt.
  pose proof (adjust_positive b newPayloadSize) as Hpos.
  assert (Hmove : select (adjust b payloadSize) 0 (HEAP_BASE b <? ref)
                  < adjust b newPayloadSize).
  { destruct (Z.ltb_spec (HEAP_BASE b) ref); unfold select; lia. }
  destruct (mem_allocate (adjust b newPayloadSize) (heap s)) as [[p h] |] eqn:Hal;
    [| now apply reallocate_move_fails].
  unfold reallocate. fold header. unfold load_u32 at 1, bind at 1. fold payloadSize.
  destruct (Z.ltb_spec payloadSize newPayloadSize); [| lia].
  destruct (Z.ltb_spec (select (adjust b payloadSize) 0 (HEAP_BASE b <? ref))
                       (adjust b newPayloadSize)); [| lia].
  unfold memory_allocate, bind at 2. unfold bind at 1. rewrite Hal.
  unfold assert.
  destruct (ref_collect_defined b); run_monad;
    match goal with
    | |- context [load32 ?m ?a =? HEADER_MAGIC] => destruct (load32 m a =? HEADER_MAGIC)
    end;
    try destruct (ASC_NO_ASSERT b); try destruct (HEAP_BASE b <? ref); simpl;
    rewrite <- ?app_assoc; simpl; eexists; reflexivity.
Qed.

(** X16. In a checked build, growing an object in static data whose
    header reads HEADER_MAGIC stops at the heap-object assertion only
    after the new block has been requested, copied into and zeroed: the
    block stays allocated and nothing is freed. *)
Theorem reallocate_static_scratch_aborts_late (s : State A) ref newPayloadSize p h :
  let header := wrap32 (ref - HEADER_SIZE b) in
  let payloadSize := load32 (mem s) (header + HEADER_payloadSize) in
  let newRef := p + HEADER_SIZE b in
  ASC_NO_ASSERT b = false ->
  ref <= HEAP_BASE b ->
  load32 (mem s) (header + HEADER_classId) = HEADER_MAGIC ->
  payloadSize < newPayloadSize ->
  mem_allocate (adjust b newPayloadSize) (heap s) = Some (p, h) ->
  0 <= p -> newRef + newPayloadSize <= 2 ^ 32 ->
  HEADER_SIZE b <= ref -> ref + payloadSize <= 2 ^ 32 ->
  newRef + newPayloadSize <= ref - HEADER_SIZE b \/ ref + payloadSize <= p ->
  exists m',
    reallocate b ref newPayloadSize s
    = Abort AssertHeapObject
        (mkState m' h
           (calls s
            ++ [EAllocate (adjust b newPayloadSize) p;
                ECopy newRef ref payloadSize;
                EFill (newRef + payloadSize) 0 (newPayloadSize - payloadSize)])).
Proof.
  intros header payloadSize newRef Hchk Hstatic Hscratch Hlt Hal Hp Hnew Href Hold Hapart.
  pose proof (load32_range (mem s) (header + HEADER_payloadSize)) as Hn.
  fold payloadSize in Hn.
  pose proof (HEADER_SIZE_cases b) as HH.
  pose proof (adjust_positive b newPayloadSize) as Hpos.
  assert (Hhdr : header = ref - HEADER_SIZE b) by (apply wrap32_small; lia).
  assert (Hw1 : wrap32 (p + HEADER_SIZE b) = newRef)
    by (apply wrap32_small; unfold newRef in *; lia).
  assert (Hw2 : wrap32 (newRef + payloadSize) = newRef + payloadSize)
    by (apply wrap32_small; unfold newRef in *; lia).
  assert (Hw3 : wrap32 (newPayloadSize - payloadSize) = newPayloadSize - payloadSize)
    by (apply wrap32_small; unfold newRef in *; lia).
  assert (Hsz : HEADER_SIZE b = if ref_collect_defined b then 16 else 8)
    by apply HEADER_SIZE_collector.
  unfold reallocate. fold header. unfold load_u32 at 1, bind at 1. fold payloadSize.
  destruct (Z.ltb_spec payloadSize newPayloadSize); [| lia].
  destruct (Z.ltb_spec (HEAP_BASE b) ref); [lia |]. unfold select.
  destruct (Z.ltb_spec 0 (adjust b newPayloadSize)); [| lia].
  unfold memory_allocate, bind at 2. unfold bind at 1. rewrite Hal.
  unfold assert. rewrite Hchk.
  destruct (ref_collect_defined b) eqn:Hgc; run_monad;
    rewrite !Hw1, !Hw2, !Hw3; fold header; rewrite Hscratch;
    unfold HEADER_classId, HEADER_payloadSize, HEADER_reserved1, HEADER_reserved2 in *;
    unfold newRef in *;
    match goal with
    | |- context [load32 ?m (header + 0) =? HEADER_MAGIC] =>
        replace (load32 m (header + 0)) with HEADER_MAGIC
          by (rewrite <- Hscratch; mem_rw; reflexivity)
    end;
    simpl; rewrite <- !app_assoc; simpl; eexists; reflexivity.
Qed.

(** X17. reallocate judges the room an object has by its current
    payloadSize, not by the block it was given: once an object has been
    shrunk, growing it past the size class of the shrunk size moves it,
    also when the original block could hold the new size.  The bytes
    below the shrunk size are carried over and everything above reads
    as zero. *)
Theorem shrink_then_regrow_moves (s : State A) ref shrunkSize newPayloadSize p h :
  let header := wrap32 (ref - HEADER_SIZE b) in
  let payloadSize := load32 (mem s) (header + HEADER_payloadSize) in
  let newRef := p + HEADER_SIZE b in
  0 <= shrunkSize <= payloadSize ->
  shrunkSize < newPayloadSize ->
  adjust b shrunkSize < adjust b newPayloadSize ->
  HEAP_BASE b < ref ->
  mem_allocate (adjust b newPayloadSize) (heap s) = Some (p, h) ->
  0 <= p -> newRef + newPayloadSize <= 2 ^ 32 ->
  HEADER_SIZE b <= ref -> ref + shrunkSize <= 2 ^ 32 ->
  newRef + newPayloadSize <= ref - HEADER_SIZE b \/ ref + shrunkSize <= p ->
  exists s',
    (ref1 <- reallocate b ref shrunkSize ;; reallocate b ref1 newPayloadSize) s
    = Ok newRef s'
    /\ newRef <> ref
    /\ load32 (mem s') (p + HEADER_payloadSize) = newPayloadSize
    /\ (forall i, 0 <= i < shrunkSize -> mem s' (newRef + i) = mem s (ref + i))
    /\ (forall i, shrunkSize <= i < newPayloadSize -> mem s' (newRef + i) = 0).
Proof.
  intros header payloadSize newRef Hshrink Hlt Hclass Hheap Hal Hp Hnew Href Hold Hapart.
  pose proof (HEADER_SIZE_cases b) as HH.
  pose proof (load32_range (mem s) (header + HEADER_payloadSize)) as Hn.
  fold payloadSize in Hn.
  assert (Hhdr : header = ref - HEADER_SIZE b) by (apply wrap32_small; lia).
  pose proof (reallocate_no_growth_run b s ref shrunkSize) as Hrun1.
  fold header payloadSize in Hrun1. specialize (Hrun1 (proj2 Hshrink)).
  rewrite (bind_ok _ _ _ _ _ Hrun1).
  set (s1 := mkState (store32 (mem s) (header + HEADER_payloadSize) shrunkSize)
                     (heap s) (calls s)) in *.
  assert (Hsize1 : load32 (mem s1) (header + HEADER_payloadSize) = shrunkSize).
  { unfold s1. cbn [mem]. rewrite load32_store32_same. apply wrap32_small. lia. }
  pose proof (reallocate_move_run b s1 ref newPayloadSize p h) as Hmove.
  cbv zeta in Hmove. fold header newRef in Hmove. rewrite Hsize1 in Hmove.
  destruct Hmove as (m' & Hrun2 & _ & Hsize & _ & Hkept & Hzero & _); try assumption.
  - destruct (Z.ltb_spec (HEAP_BASE b) ref); unfold select; [assumption | lia].
  - auto.
  - eexists. split; [exact Hrun2 |]. cbn [mem]. repeat split.
    + unfold newRef. lia.
    + exact Hsize.
    + intros i Hi. rewrite Hkept by assumption. unfold s1. cbn [mem].
      apply store32_other. unfold HEADER_payloadSize. lia.
    + exact Hzero.
Qed.

End ReallocateFacts.

Lemma reallocate_grows_in_place_witness :
  exists s',
    reallocate plain_build 56 8 written_state = Ok 56 s'
    /\ heap s' = heap written_state
    /\ calls s' = calls written_state ++ [EFill 60 0 4].
Proof.
  destruct (reallocate_grows_in_place plain_build written_state 56 8)
    as (s' & Hrun & Hheap & Hcalls & _).
  - vm_compute. reflexivity.
  - vm_compute. reflexivity.
  - vm_compute. discriminate.
  - vm_compute. discriminate.
  - vm_compute. discriminate.
  - exists s'. repeat split; assumption.
Defined.

Lemma reallocate_moves_scratch_witness :
  exists s',
    reallocate plain_build 56 100 written_state = Ok 72 s'
    /\ heap s' = mem_free 48 (arena.mkState 48 192 1 65536)
    /\ calls s'
       = calls written_state
         ++ [EAllocate 128 64; ECopy 72 56 4; EFill 76 0 96; EFree 48].
Proof.
  destruct (reallocate_moves_scratch plain_build written_state 56 100 64
              (arena.mkState 48 192 1 65536))
    as (s' & Hrun & Hheap & Hcalls & _).
  - vm_compute. reflexivity.
  - vm_compute. reflexivity.
  - vm_compute. reflexivity.
  - vm_compute. reflexivity.
  - vm_compute. reflexivity.
  - lia.
  - vm_compute. discriminate.
  - vm_compute. discriminate.
  - vm_compute. discriminate.
  - right. vm_compute. discriminate.
  - exists s'. repeat split; assumption.
Defined.

Lemma reallocate_never_frees_registered_witness :
  exists s',
    reallocate collector_build 64 100 registered_state = Ok 96 s'
    /\ heap s' = arena.mkState 48 208 1 65536.
Proof.
  destruct (reallocate_never_frees_registered collector_build registered_state 64 100 80
              (arena.mkState 48 208 1 65536))
    as (s' & Hrun & Hheap & _).
  - vm_compute. discriminate.
  - vm_compute. reflexivity.
  - vm_compute. reflexivity.
  - vm_compute. reflexivity.
  - lia.
  - vm_compute. discriminate.
  - vm_compute. discriminate.
  - vm_compute. discriminate.
  - right. vm_compute. discriminate.
  - exists s'. split; assumption.
Defined.

Lemma reallocate_static_object_always_moves_witness :
  exists rest,
    calls (state_of (reallocate plain_build 24 8 static_state))
    = calls static_state ++ EAllocate (adjust plain_build 8) 48 :: rest.
Proof.
  exact (reallocate_static_object_always_moves plain_build static_state 24 8
           ltac:(vm_compute; discriminate) ltac:(vm_compute; reflexivity)).
Defined.

Lemma reallocate_out_of_memory_witness :
  reallocate plain_build 56 100000 full_state = Abort OutOfMemory full_state.
Proof.
  apply (reallocate_out_of_memory plain_build full_state 56 100000);
    vm_compute; reflexivity.
Defined.

Lemma reallocate_static_scratch_aborts_late_witness :
  exists m',
    reallocate plain_build 24 8 static_scratch_state
    = Abort AssertHeapObject
        (mkState m' (arena.mkState 48 64 1 65536)
           (calls static_scratch_state
            ++ [EAllocate (adjust plain_build 8) 48; ECopy 56 24 4; EFill 60 0 4])).
Proof.
  apply (reallocate_static_scratch_aborts_late plain_build static_scratch_state 24 8 48
           (arena.mkState 48 64 1 65536)).
  - reflexivity.
  - vm_compute. discriminate.
  - vm_compute. reflexivity.
  - vm_compute. reflexivity.
  - vm_compute. reflexivity.
  - lia.
  - vm_compute. discriminate.
  - vm_compute. discriminate.
  - vm_compute. discriminate.
  - right. vm_compute. discriminate.
Defined.

Lemma shrink_then_regrow_moves_witness :
  exists s',
    (ref1 <- reallocate plain_build 56 4 ;; reallocate plain_build ref1 100) large_state
    = Ok 184 s'
    /\ 184 <> 56.
Proof.
  destruct (shrink_then_regrow_moves plain_build large_state 56 4 100 176
              (arena.mkState 48 304 1 65536))
    as (s' & Hrun & Hne & _).
  - vm_compute. split; discriminate.
  - lia.
  - vm_compute. reflexivity.
  - vm_compute. reflexivity.
  - vm_compute. reflexivity.
  - lia.
  - vm_compute. discriminate.
  - vm_compute. discriminate.
  - vm_compute. discriminate.
  - right. vm_compute. discriminate.
  - exists s'. split; assumption.
Defined.

(* ================================================================== *)
(** ** Further properties of makeArray *)

Section MakeArrayLayout.
Context {A : Type} {allocator : Allocator A}.
Variable b : Build.

(** The memory [makeArray] leaves, for blocks handed out apart from each
    other. *)
Lemma makeArray_memory (s : State A) capacity cid alignLog2 source p1 h1 p2 h2 :
  let bufferSize := shl32 capacity alignLog2 in
  let array := p1 + HEADER_SIZE b in
  let buffer := p2 + HEADER_SIZE b in
  mem_allocate (adjust b offsetof_Array) (heap s) = Some (p1, h1) ->
  mem_allocate (adjust b bufferSize) h1 = Some (p2, h2) ->
  0 <= p1 -> array < 2 ^ 32 -> 0 <= p2 -> buffer < 2 ^ 32 ->
  array + offsetof_Array <= p2 \/ buffer + bufferSize <= p1 ->
  (ASC_NO_ASSERT b = false -> HEAP_BASE b < array /\ HEAP_BASE b < buffer) ->
  exists s',
    makeArray b capacity cid alignLog2 source s = Ok array s'
    /\ heap s' = h2
    /\ load32 (mem s') (p1 + HEADER_classId) = wrap32 cid
    /\ load32 (mem s') (p1 + HEADER_payloadSize) = offsetof_Array
    /\ load32 (mem s') (p2 + HEADER_classId) = wrap32 (classId_ArrayBuffer b)
    /\ load32 (mem s') (p2 + HEADER_payloadSize) = bufferSize
    /\ load32 (mem s') (array + ArrayBufferView_data) = buffer
    /\ load32 (mem s') (array + ArrayBufferView_dataStart) = buffer
    /\ load32 (mem s') (array + ArrayBufferView_dataLength) = bufferSize
    /\ load32 (mem s') (array + Array_length_) = wrap32 capacity
    /\ (source <> 0 ->
        source + bufferSize <= p1 \/ array + offsetof_Array <= source ->
        source + bufferSize <= p2 \/ buffer <= source ->
        forall i, 0 <= i < bufferSize -> mem s' (buffer + i) = mem s (source + i)).
Proof.
  intros bufferSize array buffer Hal1 Hal2 Hp1 Harr Hp2 Hbuf Hapart Hheap.
  pose proof (HEADER_SIZE_cases b) as HH.
  pose proof (shl32_range capacity alignLog2) as Hsize. fold bufferSize in Hsize.
  assert (Hhdr1 : wrap32 (array - HEADER_SIZE b) = p1).
  { unfold array. replace (p1 + HEADER_SIZE b - HEADER_SIZE b) with p1 by lia.
    apply wrap32_small. lia. }
  assert (Hhdr2 : wrap32 (buffer - HEADER_SIZE b) = p2).
  { unfold buffer. replace (p2 + HEADER_SIZE b - HEADER_SIZE b) with p2 by lia.
    apply wrap32_small. lia. }
  destruct (allocate_run b s offsetof_Array p1 h1 Hal1)
    as (m1 & Hrun1 & Hcid1 & Hsz1 & _ & Hframe1).
  rewrite wrap32_small in Hrun1 by (fold array; lia). fold array in Hrun1.
  set (s1 := mkState m1 h1 (calls s ++ [EAllocate (adjust b offsetof_Array) p1])) in *.
  assert (Hreg1 : register b array cid s1 = Ok array
            (mkState (store32 m1 (p1 + HEADER_classId) cid) h1
               (calls s1 ++ if ref_register_defined b then [ERegister array] else []))).
  { rewrite register_run; cbn [mem heap calls]; rewrite Hhdr1; [reflexivity |].
    intros Hchk. split; [apply (Hheap Hchk) | exact Hcid1]. }
  set (s2 := mkState (store32 m1 (p1 + HEADER_classId) cid) h1
               (calls s1 ++ if ref_register_defined b then [ERegister array] else [])) in *.
  destruct (allocate_run b s2 bufferSize p2 h2 Hal2)
    as (m3 & Hrun3 & Hcid3 & Hsz3 & _ & Hframe3).
  rewrite wrap32_small in Hrun3 by (fold buffer; lia). fold buffer in Hrun3.
  set (s3 := mkState m3 h2 (calls s2 ++ [EAllocate (adjust b bufferSize) p2])) in *.
  assert (Hreg2 : register b buffer (classId_ArrayBuffer b) s3 = Ok buffer
            (mkState (store32 m3 (p2 + HEADER_classId) (classId_ArrayBuffer b)) h2
               (calls s3 ++ if ref_register_defined b then [ERegister buffer] else []))).
  { rewrite register_run; cbn [mem heap calls]; rewrite Hhdr2; [reflexivity |].
    intros Hchk. split; [apply (Hheap Hchk) | exact Hcid3]. }
  assert (Hframe3' : forall x, ~ (p2 <= x < p2 + HEADER_SIZE b) ->
                               m3 x = store32 m1 (p1 + HEADER_classId) cid x)
    by exact Hframe3.
  assert (Hload3 : forall a, a + 4 <= p2 \/ p2 + HEADER_SIZE b <= a ->
                             load32 m3 a = load32 (store32 m1 (p1 + HEADER_classId) cid) a).
  { intros a Ha. apply load32_ext. intros x Hx. apply Hframe3'. lia. }
  unfold makeArray. fold bufferSize.
  rewrite (bind_ok _ _ _ _ _ Hrun1), (bind_ok _ _ _ _ _ Hreg1),
          (bind_ok _ _ _ _ _ Hrun3), (bind_ok _ _ _ _ _ Hreg2).
  unfold store_managed_field, s3, s2, s1.
  rewrite (wrap32_small offsetof_Array) in Hsz1 by (unfold offsetof_Array; lia).
  rewrite (wrap32_small bufferSize) in Hsz3 by lia.
  unfold ArrayBufferView_data, ArrayBufferView_dataStart, ArrayBufferView_dataLength,
    Array_length_, offsetof_Array, HEADER_classId, HEADER_payloadSize in *.
  destruct (ref_link_defined b); destruct (Z.eqb_spec source 0) as [Hnull | Hsrc];
    run_monad; (eexists; split; [reflexivity |]); cbn [mem heap];
    (split; [reflexivity |]);
    (repeat split;
     [ mem_rw; rewrite Hload3 by lia; mem_rw; reflexivity
     | mem_rw; rewrite Hload3 by lia; mem_rw; exact Hsz1
     | mem_rw; reflexivity
     | mem_rw; exact Hsz3
     | mem_rw; apply wrap32_small; lia
     | mem_rw; apply wrap32_small; lia
     | mem_rw; apply wrap32_small; lia
     | mem_rw; reflexivity
     | try contradiction;
       intros _ Haway1 Haway2 i Hi; mem_rw;
       replace (source + (buffer + i - buffer)) with (source + i) by lia;
       mem_rw; rewrite Hframe3' by lia; mem_rw; apply Hframe1; lia ]).
Qed.

Lemma bind_abort {X Y} (m : M A X) (k : X -> M A Y) s f s' :
  m s = Abort f s' -> bind m k s = Abort f s'.
Proof. intros H. unfold bind. now rewrite H. Qed.

(** X18. makeArray leaves two well-formed objects: the array carries the
    given class id and a payload of offsetof<i32[]>() bytes, the buffer
    carries the class id of ArrayBuffer and a payload of
    capacity << alignLog2 bytes; the array's data and dataStart fields
    hold the buffer's reference, dataLength the buffer's size and the
    length field the capacity.  This holds with and without a source. *)
Theorem makeArray_initialises_view
    (s : State A) capacity cid alignLog2 source p1 h1 p2 h2 :
  let bufferSize := shl32 capacity alignLog2 in
  let array := p1 + HEADER_SIZE b in
  let buffer := p2 + HEADER_SIZE b in
  mem_allocate (adjust b offsetof_Array) (heap s) = Some (p1, h1) ->
  mem_allocate (adjust b bufferSize) h1 = Some (p2, h2) ->
  0 <= p1 -> array < 2 ^ 32 -> 0 <= p2 -> buffer < 2 ^ 32 ->
  array + offsetof_Array <= p2 \/ buffer + bufferSize <= p1 ->
  (ASC_NO_ASSERT b = false -> HEAP_BASE b < array /\ HEAP_BASE b < buffer) ->
  0 <= capacity < 2 ^ 32 -> 0 <= cid < 2 ^ 32 -> 0 <= classId_ArrayBuffer b < 2 ^ 32 ->
  exists s',
    makeArray b capacity cid alignLog2 source s = Ok array s'
    /\ load32 (mem s') (wrap32 (array - HEADER_SIZE b) + HEADER_classId) = cid
    /\ load32 (mem s') (wrap32 (array - HEADER_SIZE b) + HEADER_payloadSize)
       = offsetof_Array
    /\ load32 (mem s') (wrap32 (buffer - HEADER_SIZE b) + HEADER_classId)
       = classId_ArrayBuffer b
    /\ load32 (mem s') (wrap32 (buffer - HEADER_SIZE b) + HEADER_payloadSize)
       = bufferSize
    /\ load32 (mem s') (array + ArrayBufferView_data) = buffer
    /\ load32 (mem s') (array + ArrayBufferView_dataStart) = buffer
    /\ load32 (mem s') (array + ArrayBufferView_dataLength) = bufferSize
    /\ load32 (mem s') (array + Array_length_) = capacity.
Proof.
  intros bufferSize array buffer Hal1 Hal2 Hp1 Harr Hp2 Hbuf Hapart Hheap Hcap Hcid Hab.
  pose proof (HEADER_SIZE_cases b) as HH.
  destruct (makeArray_memory s capacity cid alignLog2 source p1 h1 p2 h2)
    as (s' & Hrun & _ & F1 & F2 & F3 & F4 & F5 & F6 & F7 & F8 & _); try assumption.
  fold bufferSize array buffer in Hrun, F4, F5, F6, F7, F8.
  rewrite wrap32_small in F1, F3, F8 by assumption.
  assert (Hhdr1 : wrap32 (array - HEADER_SIZE b) = p1).
  { unfold array. replace (p1 + HEADER_SIZE b - HEADER_SIZE b) with p1 by lia.
    apply wrap32_small. lia. }
  assert (Hhdr2 : wrap32 (buffer - HEADER_SIZE b) = p2).
  { unfold buffer. replace (p2 + HEADER_SIZE b - HEADER_SIZE b) with p2 by lia.
    apply wrap32_small. lia. }
  rewrite Hhdr1, Hhdr2.
  exists s'. repeat split; assumption.
Qed.

(** X19. Given a source that lies apart from the two new headers and from
    the array object, makeArray fills the buffer with the
    capacity << alignLog2 bytes found at the source before the call. *)
Theorem makeArray_copies_source
    (s : State A) capacity cid alignLog2 source p1 h1 p2 h2 :
  let bufferSize := shl32 capacity alignLog2 in
  let array := p1 + HEADER_SIZE b in
  let buffer := p2 + HEADER_SIZE b in
  source <> 0 ->
  mem_allocate (adjust b offsetof_Array) (heap s) = Some (p1, h1) ->
  mem_allocate (adjust b bufferSize) h1 = Some (p2, h2) ->
  0 <= p1 -> array < 2 ^ 32 -> 0 <= p2 -> buffer < 2 ^ 32 ->
  array + offsetof_Array <= p2 \/ buffer + bufferSize <= p1 ->
  (ASC_NO_ASSERT b = false -> HEAP_BASE b < array /\ HEAP_BASE b < buffer) ->
  source + bufferSize <= p1 \/ array + offsetof_Array <= source ->
  source + bufferSize <= p2 \/ buffer <= source ->
  exists s',
    makeArray b capacity cid alignLog2 source s = Ok array s'
    /\ load32 (mem s') (array + ArrayBufferView_dataStart) = buffer
    /\ forall i, 0 <= i < bufferSize ->
                 load8 (mem s') (buffer + i) = load8 (mem s) (source + i).
Proof.
  intros bufferSize array buffer Hsrc Hal1 Hal2 Hp1 Harr Hp2 Hbuf Hapart Hheap Ha1 Ha2.
  destruct (makeArray_memory s capacity cid alignLog2 source p1 h1 p2 h2)
    as (s' & Hrun & _ & _ & _ & _ & _ & _ & Hstart & _ & _ & Hbytes); try assumption.
  exists s'. split; [exact Hrun |]. split; [exact Hstart |].
  intros i Hi. unfold load8. f_equal. exact (Hbytes Hsrc Ha1 Ha2 i Hi).
Qed.

(** X20. In a build without collector hooks makeArray calls nothing but
    the backing allocator, twice, and the copy when a source is given. *)
Theorem makeArray_without_collector
    (s : State A) capacity cid alignLog2 source p1 h1 p2 h2 :
  let bufferSize := shl32 capacity alignLog2 in
  let array := p1 + HEADER_SIZE b in
  let buffer := p2 + HEADER_SIZE b in
  ref_register_defined b = false -> ref_link_defined b = false ->
  mem_allocate (adjust b offsetof_Array) (heap s) = Some (p1, h1) ->
  mem_allocate (adjust b bufferSize) h1 = Some (p2, h2) ->
  0 <= p1 -> array < 2 ^ 32 -> 0 <= p2 -> buffer < 2 ^ 32 ->
  (ASC_NO_ASSERT b = false -> HEAP_BASE b < array /\ HEAP_BASE b < buffer) ->
  exists s',
    makeArray b capacity cid alignLog2 source s = Ok array s'
    /\ calls s'
       = calls s
         ++ [EAllocate (adjust b offsetof_Array) p1; EAllocate (adjust b bufferSize) p2]
         ++ (if source =? 0 then [] else [ECopy buffer source bufferSize]).
Proof.
  intros bufferSize array buffer Hreg Hlink Hal1 Hal2 Hp1 Harr Hp2 Hbuf Hheap.
  destruct (makeArray_run b s capacity cid alignLog2 source p1 h1 p2 h2)
    as (m' & Hrun & _); try assumption.
  fold bufferSize array buffer in Hrun. rewrite Hreg, Hlink in Hrun.
  eexists. split; [exact Hrun | reflexivity].
Qed.

(** X21. When the backing allocator has a block for the array but none
    for the buffer, makeArray aborts with the array already allocated
    and registered: the collector has been told of an array that is
    never returned. *)
Theorem makeArray_buffer_allocation_fails
    (s : State A) capacity cid alignLog2 source p1 h1 :
  let bufferSize := shl32 capacity alignLog2 in
  let array := p1 + HEADER_SIZE b in
  mem_allocate (adjust b offsetof_Array) (heap s) = Some (p1, h1) ->
  mem_allocate (adjust b bufferSize) h1 = None ->
  0 <= p1 -> array < 2 ^ 32 ->
  (ASC_NO_ASSERT b = false -> HEAP_BASE b < array) ->
  exists m',
    makeArray b capacity cid alignLog2 source s
    = Abort OutOfMemory
        (mkState m' h1
           (calls s ++ [EAllocate (adjust b offsetof_Array) p1]
            ++ (if ref_register_defined b then [ERegister array] else []))).
Proof.
  intros bufferSize array Hal1 Hal2 Hp1 Harr Hheap.
  pose proof (HEADER_SIZE_cases b) as HH.
  assert (Hhdr1 : wrap32 (array - HEADER_SIZE b) = p1).
  { unfold array. replace (p1 + HEADER_SIZE b - HEADER_SIZE b) with p1 by lia.
    apply wrap32_small. lia. }
  destruct (allocate_run b s offsetof_Array p1 h1 Hal1) as (m1 & Hrun1 & Hcid1 & _).
  rewrite wrap32_small in Hrun1 by (fold array; lia). fold array in Hrun1.
  eexists. unfold makeArray. fold bufferSize.
  rewrite (bind_ok _ _ _ _ _ Hrun1).
  erewrite bind_ok.
  2:{ apply register_run. cbn [mem]. rewrite Hhdr1. intros Hchk.
      split; [apply (Hheap Hchk) | exact Hcid1]. }
  erewrite bind_abort by (apply allocate_out_of_memory; exact Hal2).
  cbn [mem heap calls]. now rewrite <- app_assoc.
Qed.

End MakeArrayLayout.

Lemma makeArray_initialises_view_witness :
  exists s',
    makeArray collector_build 3 9 2 8 source_state = Ok 64 s'
    /\ load32 (mem s') (wrap32 (64 - HEADER_SIZE collector_build) + HEADER_classId) = 9
    /\ load32 (mem s') (64 + Array_length_) = 3.
Proof.
  destruct (makeArray_initialises_view collector_build source_state 3 9 2 8
              48 (arena.mkState 48 80 1 65536) 80 (arena.mkState 48 112 1 65536))
    as (s' & Hrun & Hcid & _ & _ & _ & _ & _ & _ & Hlen).
  - vm_compute. reflexivity.
  - vm_compute. reflexivity.
  - lia.
  - vm_compute. reflexivity.
  - lia.
  - vm_compute. reflexivity.
  - left. vm_compute. discriminate.
  - intros _. vm_compute. split; reflexivity.
  - lia.
  - lia.
  - vm_compute. split; [discriminate | reflexivity].
  - exists s'. repeat split; assumption.
Defined.

Lemma makeArray_copies_source_witness :
  exists s',
    makeArray collector_build 3 9 2 8 source_state = Ok 64 s'
    /\ load32 (mem s') (64 + ArrayBufferView_dataStart) = 96
    /\ forall i, 0 <= i < 12 ->
                 load8 (mem s') (96 + i) = load8 (mem source_state) (8 + i).
Proof.
  apply (makeArray_copies_source collector_build source_state 3 9 2 8
           48 (arena.mkState 48 80 1 65536) 80 (arena.mkState 48 112 1 65536)).
  - discriminate.
  - vm_compute. reflexivity.
  - vm_compute. reflexivity.
  - lia.
  - vm_compute. reflexivity.
  - lia.
  - vm_compute. reflexivity.
  - left. vm_compute. discriminate.
  - intros _. vm_compute. split; reflexivity.
  - left. vm_compute. discriminate.
  - left. vm_compute. discriminate.
Defined.

Lemma makeArray_without_collector_witness :
  exists s',
    makeArray plain_build 3 9 2 8 source_state = Ok 56 s'
    /\ calls s' = [EAllocate 32 48; EAllocate 32 80; ECopy 88 8 12].
Proof.
  apply (makeArray_without_collector plain_build source_state 3 9 2 8
           48 (arena.mkState 48 80 1 65536) 80 (arena.mkState 48 112 1 65536)).
  - reflexivity.
  - reflexivity.
  - vm_compute. reflexivity.
  - vm_compute. reflexivity.
  - lia.
  - vm_compute. reflexivity.
  - lia.
  - vm_compute. reflexivity.
  - intros _. vm_compute. split; reflexivity.
Defined.

Lemma makeArray_buffer_allocation_fails_witness :
  exists m',
    makeArray collector_build 20000 9 2 0 small_state
    = Abort OutOfMemory
        (mkState m' (arena.mkState 48 80 1 1) [EAllocate 32 48; ERegister 64]).
Proof.
  apply (makeArray_buffer_allocation_fails collector_build small_state 20000 9 2 0
           48 (arena.mkState 48 80 1 1)).
  - vm_compute. reflexivity.
  - vm_compute. reflexivity.
  - lia.
  - vm_compute. reflexivity.
  - intros _. vm_compute. reflexivity.
Defined.

(* ================================================================== *)
(** ** The arena allocator *)

Lemma wrap32_neg_pow2 k : 0 <= k <= 32 -> wrap32 (- 2 ^ k) = 2 ^ 32 - 2 ^ k.
Proof.
  intros Hk. unfold wrap32. symmetry.
  assert (Hpow : 0 < 2 ^ k <= 2 ^ 32).
  { split; [apply Z.pow_pos_nonneg; lia | apply Z.pow_le_mono_r; lia]. }
  apply (Z.mod_unique _ _ (-1)); lia.
Qed.

(** Masking a 32-bit value with the two's complement of 2^k rounds it
    down to a multiple of 2^k. *)
Lemma land_round_down x k :
  0 <= x < 2 ^ 32 -> 0 <= k <= 32 ->
  Z.land x (wrap32 (- 2 ^ k)) = 2 ^ k * (x / 2 ^ k).
Proof.
  intros Hx Hk. rewrite wrap32_neg_pow2 by assumption.
  replace (2 ^ 32 - 2 ^ k) with (Z.shiftl (Z.ones (32 - k)) k).
  2:{ rewrite Z.shiftl_mul_pow2, Z.ones_equiv by lia.
      replace (2 ^ 32) with (2 ^ (32 - k) * 2 ^ k)
        by (rewrite <- Z.pow_add_r by lia; f_equal; lia).
      lia. }
  replace (2 ^ k * (x / 2 ^ k)) with (Z.shiftl (Z.shiftr x k) k)
    by (rewrite Z.shiftl_mul_pow2, Z.shiftr_div_pow2 by lia; lia).
  apply Z.bits_inj'. intros n Hn.
  rewrite Z.land_spec, !Z.shiftl_spec by assumption.
  destruct (Z.lt_ge_cases n k) as [Hlow | Hhigh].
  - rewrite !(Z.testbit_neg_r _ (n - k)) by lia. apply andb_false_r.
  - rewrite Z.shiftr_spec by lia. replace (n - k + k) with n by lia.
    destruct (Z.lt_ge_cases n 32) as [Hin | Hout].
    + rewrite Z.ones_spec_low by lia. apply andb_true_r.
    + rewrite Z.ones_spec_high by lia. rewrite andb_false_r.
      destruct (Z.eq_dec x 0) as [-> | Hnz]; [now rewrite Z.bits_0 |].
      symmetry. apply Z.bits_above_log2; [lia |].
      apply Z.log2_lt_pow2; [lia |].
      assert (2 ^ 32 <= 2 ^ n) by (apply Z.pow_le_mono_r; lia). lia.
Qed.

Lemma round_up_8 x :
  0 <= x -> x + 7 < 2 ^ 32 ->
  Z.land (wrap32 (wrap32 x + 7)) (wrap32 (-8)) = 8 * ((x + 7) / 8).
Proof.
  intros Hx Hmax. rewrite (wrap32_small x), (wrap32_small (x + 7)) by lia.
  change (-8) with (- 2 ^ 3). rewrite land_round_down by lia. reflexivity.
Qed.

Lemma pages_for d :
  0 <= d -> d + 65535 < 2 ^ 32 ->
  shr32_u (Z.land (wrap32 (wrap32 d + 65535)) (wrap32 (-65536))) 16
  = (d + 65535) / 65536.
Proof.
  intros Hd Hmax. rewrite (wrap32_small d), (wrap32_small (d + 65535)) by lia.
  change (-65536) with (- 2 ^ 16). rewrite land_round_down by lia.
  unfold shr32_u. change (Z.land 16 31) with 16.
  rewrite Z.shiftr_div_pow2 by lia. change (2 ^ 16) with 65536.
  rewrite Z.mul_comm, Z.div_mul by lia. reflexivity.
Qed.

(** [__mem_allocate] in plain arithmetic, while the bump pointer stays
    inside the 32-bit range and memory is below its 4 GiB limit. *)
Lemma arena_allocate_arith (st : arena.state) size :
  let ptr := arena.offset st in
  let newPtr := 8 * ((ptr + Z.max size 1 + 7) / 8) in
  let pagesNeeded := (newPtr - ptr + 65535) / 65536 in
  let pagesWanted := Z.max (arena.pages st) pagesNeeded in
  0 <= size <= MAX_SIZE_32 ->
  0 <= ptr -> ptr + Z.max size 1 + 7 < 2 ^ 32 ->
  0 <= arena.pages st < 65536 ->
  arena.__mem_allocate size st
  = if newPtr <=? 65536 * arena.pages st
    then Some (ptr, arena.set_offset st newPtr)
    else if arena.pages st + pagesWanted <=? arena.max_pages st
    then Some (ptr, arena.mkState (arena.startOffset st) newPtr
                      (arena.pages st + pagesWanted) (arena.max_pages st))
    else if arena.pages st + pagesNeeded <=? arena.max_pages st
    then Some (ptr, arena.mkState (arena.startOffset st) newPtr
                      (arena.pages st + pagesNeeded) (arena.max_pages st))
    else None.
Proof.
  intros ptr newPtr pagesNeeded pagesWanted Hsize Hptr Hmax Hpages.
  unfold MAX_SIZE_32 in Hsize.
  unfold arena.__mem_allocate. fold ptr.
  destruct (Z.ltb_spec MAX_SIZE_32 size) as [Hbig | _];
    [unfold MAX_SIZE_32 in Hbig; lia |].
  assert (Hsel : select size 1 (1 <? size) = Z.max size 1).
  { unfold select. destruct (Z.ltb_spec 1 size); lia. }
  rewrite Hsel. rewrite round_up_8 by lia. fold newPtr.
  assert (Hnew : ptr < newPtr <= ptr + Z.max size 1 + 7).
  { unfold newPtr. pose proof (Z.div_mod (ptr + Z.max size 1 + 7) 8 ltac:(lia)).
    pose proof (Z.mod_pos_bound (ptr + Z.max size 1 + 7) 8 ltac:(lia)). lia. }
  assert (Hshl : shl32 (arena.pages st) 16 = 65536 * arena.pages st).
  { unfold shl32. change (Z.land 16 31) with 16. rewrite Z.shiftl_mul_pow2 by lia.
    change (2 ^ 16) with 65536. rewrite wrap32_small; lia. }
  rewrite Hshl.
  destruct (Z.ltb_spec (65536 * arena.pages st) newPtr) as [Hgrow | Hfits];
    destruct (Z.leb_spec newPtr (65536 * arena.pages st)); try lia; [| reflexivity].
  rewrite pages_for by lia. fold pagesNeeded.
  assert (Hneed : 0 <= pagesNeeded <= 65536).
  { unfold pagesNeeded. split.
    - apply Z.div_pos; lia.
    - apply Z.div_le_upper_bound; lia. }
  assert (Hs1 : signed32 pagesNeeded = pagesNeeded).
  { unfold signed32. destruct (Z.ltb_spec pagesNeeded (2 ^ 31)); lia. }
  assert (Hs2 : signed32 (arena.pages st) = arena.pages st).
  { unfold signed32. destruct (Z.ltb_spec (arena.pages st) (2 ^ 31)); lia. }
  rewrite Hs1, Hs2.
  assert (Hwant : select (arena.pages st) pagesNeeded (pagesNeeded <? arena.pages st)
                  = pagesWanted).
  { unfold select, pagesWanted. destruct (Z.ltb_spec pagesNeeded (arena.pages st)); lia. }
  rewrite Hwant. unfold arena.grow_memory.
  destruct (Z.leb_spec (arena.pages st + pagesWanted) (arena.max_pages st)).
  - rewrite Hs2. destruct (Z.ltb_spec (arena.pages st) 0); [lia | reflexivity].
  - change (signed32 (wrap32 (-1)) <? 0) with true. cbv iota.
    destruct (Z.leb_spec (arena.pages st + pagesNeeded) (arena.max_pages st)).
    + rewrite Hs2. destruct (Z.ltb_spec (arena.pages st) 0); [lia | reflexivity].
    + reflexivity.
Qed.

Lemma arena_returns_offset (st st' : arena.state) size p :
  arena.__mem_allocate size st = Some (p, st') -> p = arena.offset st.
Proof.
  unfold arena.__mem_allocate.
  destruct (MAX_SIZE_32 <? size); [discriminate |].
  cbv zeta.
  set (newPtr := Z.land _ (wrap32 (-8))). clearbody newPtr.
  set (need := shr32_u _ 16). clearbody need.
  set (want := select _ need _). clearbody want.
  destruct (shl32 (arena.pages st) 16 <? newPtr); [| intros H; now injection H].
  unfold arena.grow_memory.
  destruct (arena.pages st + want <=? arena.max_pages st).
  - destruct (signed32 (arena.pages st) <? 0); [| intros H; now injection H].
    cbn [arena.pages arena.max_pages].
    destruct (arena.pages st + want + need <=? arena.max_pages st);
      match goal with |- context [if ?c then None else _] => destruct c end;
      intros H; (discriminate || now injection H).
  - destruct (signed32 (wrap32 (-1)) <? 0); [| intros H; now injection H].
    destruct (arena.pages st + need <=? arena.max_pages st);
      match goal with |- context [if ?c then None else _] => destruct c end;
      intros H; (discriminate || now injection H).
Qed.



(** X23. Two blocks the arena hands out one after the other never
    overlap, and are distinct even for requests of zero bytes. *)
Theorem arena_successive_blocks_disjoint
    (st st1 st2 : arena.state) size1 size2 p1 p2 :
  0 <= size1 ->
  0 <= arena.offset st -> 0 <= arena.pages st < 65536 ->
  arena.offset st + Z.max size1 1 + 7 < 2 ^ 32 ->
  arena.__mem_allocate size1 st = Some (p1, st1) ->
  arena.__mem_allocate size2 st1 = Some (p2, st2) ->
  p1 + size1 <= p2 /\ p1 < p2.
Proof.
  intros Hsize Hoff Hpages Hmax Hal1 Hal2.
  apply arena_returns_offset in Hal2. subst p2.
  destruct (Z.ltb_spec MAX_SIZE_32 size1) as [Hbig | Hok].
  { unfold arena.__mem_allocate in Hal1.
    destruct (Z.ltb_spec MAX_SIZE_32 size1); [discriminate | lia]. }
  rewrite arena_allocate_arith in Hal1 by lia.
  set (ptr := arena.offset st) in *.
  set (newPtr := 8 * ((ptr + Z.max size1 1 + 7) / 8)) in *.
  assert (Hnew : ptr + Z.max size1 1 <= newPtr).
  { unfold newPtr. pose proof (Z.div_mod (ptr + Z.max size1 1 + 7) 8 ltac:(lia)).
    pose proof (Z.mod_pos_bound (ptr + Z.max size1 1 + 7) 8 ltac:(lia)). lia. }
  repeat match type of Hal1 with
         | context [if ?c then _ else _] => destruct c
         end;
    try discriminate; injection Hal1 as Hp Hst; subst p1 st1;
    unfold arena.set_offset; cbn [arena.offset]; lia.
Qed.

(** X24. The arena refuses a request of at most MAX_SIZE_32 bytes exactly
    when the new bump pointer lies beyond the current memory and the
    host does not grant the pages needed to reach it. *)
Theorem arena_refuses_only_without_memory (st : arena.state) size :
  let newPtr := 8 * ((arena.offset st + Z.max size 1 + 7) / 8) in
  let pagesNeeded := (newPtr - arena.offset st + 65535) / 65536 in
  0 <= size <= MAX_SIZE_32 ->
  0 <= arena.offset st -> arena.offset st + Z.max size 1 + 7 < 2 ^ 32 ->
  0 <= arena.pages st < 65536 ->
  (arena.__mem_allocate size st = None
   <-> 65536 * arena.pages st < newPtr
       /\ arena.max_pages st < arena.pages st + pagesNeeded).
Proof.
  intros newPtr pagesNeeded Hsize Hoff Hmax Hpages.
  rewrite arena_allocate_arith by assumption.
  fold newPtr. fold pagesNeeded.
  destruct (Z.leb_spec newPtr (65536 * arena.pages st)).
  { split; [discriminate | lia]. }
  destruct (Z.leb_spec (arena.pages st + Z.max (arena.pages st) pagesNeeded)
                       (arena.max_pages st)).
  { split; [discriminate | lia]. }
  destruct (Z.leb_spec (arena.pages st + pagesNeeded) (arena.max_pages st)).
  { split; [discriminate | lia]. }
  split; [lia | reflexivity].
Qed.

(** X25. The arena does not guard its bump pointer against overflow: when
    the pointer plus the request passes 2^32 the sum wraps, the request
    is granted without growing memory, the block handed out ends beyond
    the memory of the instance, and the bump pointer moves backwards. *)
Theorem arena_pointer_wraps (st : arena.state) size :
  0 <= size <= MAX_SIZE_32 ->
  0 <= arena.offset st <= 65536 * arena.pages st ->
  0 <= arena.pages st < 65536 ->
  2 ^ 32 <= arena.offset st + Z.max size 1 + 7 ->
  exists newPtr,
    arena.__mem_allocate size st = Some (arena.offset st, arena.set_offset st newPtr)
    /\ newPtr < arena.offset st
    /\ 65536 * arena.pages st < arena.offset st + Z.max size 1.
Proof.
  intros Hsize Hoff Hpages Hover. unfold MAX_SIZE_32 in Hsize.
  set (ptr := arena.offset st) in *.
  assert (Hsel : select size 1 (1 <? size) = Z.max size 1).
  { unfold select. destruct (Z.ltb_spec 1 size); lia. }
  assert (Hsum : wrap32 (wrap32 (ptr + Z.max size 1) + 7)
                 = ptr + Z.max size 1 + 7 - 2 ^ 32).
  { unfold wrap32. rewrite Zplus_mod_idemp_l. symmetry.
    apply (Z.mod_unique _ _ 1); lia. }
  exists (8 * ((ptr + Z.max size 1 + 7 - 2 ^ 32) / 8)).
  assert (Hnew : 8 * ((ptr + Z.max size 1 + 7 - 2 ^ 32) / 8)
                 <= ptr + Z.max size 1 + 7 - 2 ^ 32).
  { pose proof (Z.div_mod (ptr + Z.max size 1 + 7 - 2 ^ 32) 8 ltac:(lia)).
    pose proof (Z.mod_pos_bound (ptr + Z.max size 1 + 7 - 2 ^ 32) 8 ltac:(lia)). lia. }
  assert (Hnonneg : 0 <= 8 * ((ptr + Z.max size 1 + 7 - 2 ^ 32) / 8)).
  { assert (0 <= (ptr + Z.max size 1 + 7 - 2 ^ 32) / 8) by (apply Z.div_pos; lia). lia. }
  split; [| split; [lia |]].
  - unfold arena.__mem_allocate. fold ptr.
    destruct (Z.ltb_spec MAX_SIZE_32 size) as [Hbig | _];
      [unfold MAX_SIZE_32 in Hbig; lia |].
    rewrite Hsel, Hsum.
    change (-8) with (- 2 ^ 3). rewrite land_round_down by lia.
    change (2 ^ 3) with 8.
    assert (Hshl : shl32 (arena.pages st) 16 = 65536 * arena.pages st).
    { unfold shl32. change (Z.land 16 31) with 16. rewrite Z.shiftl_mul_pow2 by lia.
      change (2 ^ 16) with 65536. rewrite wrap32_small; lia. }
    rewrite Hshl.
    destruct (Z.ltb_spec (65536 * arena.pages st)
                (8 * ((ptr + Z.max size 1 + 7 - 2 ^ 32) / 8))); [lia | reflexivity].
  - lia.
Qed.


Lemma arena_successive_blocks_disjoint_witness : 48 + 16 <= 64 /\ 48 < 64.
Proof.
  apply (arena_successive_blocks_disjoint (arena.start 48 1 65536)
           (arena.mkState 48 64 1 65536) (arena.mkState 48 192 1 65536) 16 128 48 64).
  - lia.
  - vm_compute. discriminate.
  - vm_compute. split; [discriminate | reflexivity].
  - vm_compute. reflexivity.
  - vm_compute. reflexivity.
  - vm_compute. reflexivity.
Defined.

Lemma arena_refuses_only_without_memory_witness :
  arena.__mem_allocate 100000 (arena.start 48 1 1) = None.
Proof.
  apply (arena_refuses_only_without_memory (arena.start 48 1 1) 100000).
  - vm_compute. split; discriminate.
  - vm_compute. discriminate.
  - vm_compute. reflexivity.
  - vm_compute. split; [discriminate | reflexivity].
  - vm_compute. split; reflexivity.
Defined.

Lemma arena_pointer_wraps_witness :
  exists newPtr,
    arena.__mem_allocate 65536 (arena.mkState 48 (2 ^ 32 - 65536) 65535 65536)
    = Some (2 ^ 32 - 65536,
            arena.set_offset (arena.mkState 48 (2 ^ 32 - 65536) 65535 65536) newPtr)
    /\ newPtr < 2 ^ 32 - 65536.
Proof.
  destruct (arena_pointer_wraps (arena.mkState 48 (2 ^ 32 - 65536) 65535 65536) 65536)
    as (newPtr & Hal & Hback & _).
  - vm_compute. split; discriminate.
  - vm_compute. split; discriminate.
  - vm_compute. split; [discriminate | reflexivity].
  - vm_compute. discriminate.
  - exists newPtr. split; assumption.
Defined.

(* ================================================================== *)
(** ** The compiled module against the source *)



(** X26. The compiled [runtime.allocate], specialised by the compiler to
    a payload of four bytes in a build without collector, does on every
    state what [allocate] does there. *)
Theorem compiled_allocate_matches_source (s : State arena.state) :
  compiled.runtime_allocate s = allocate plain_build 4 s.
Proof.
  unfold compiled.runtime_allocate, allocate, memory_allocate.
  change (adjust plain_build 4) with 16.
  change (ref_collect_defined plain_build) with false.
  change (HEADER_SIZE plain_build) with 8.
  unfold HEADER_classId, HEADER_payloadSize. run_monad.
  destruct (arena.__mem_allocate 16 (heap s)) as [[p h] |]; [| reflexivity].
  rewrite Z.add_0_r. reflexivity.
Qed.

(** X27. The compiled [runtime.register] does on every state what
    [register] does in a checked build without collector whose heap
    starts at 48: the same result, the same memory, the same failure. *)
Theorem compiled_register_matches_source (s : State arena.state) (ref classId : Z) :
  compiled.runtime_register ref classId s = register plain_build ref classId s.
Proof.
  unfold compiled.runtime_register, register, assert.
  change (ASC_NO_ASSERT plain_build) with false.
  change (ref_register_defined plain_build) with false.
  change (HEAP_BASE plain_build) with 48.
  change (HEADER_SIZE plain_build) with 8.
  unfold HEADER_classId. rewrite Z.add_0_r. cbn [negb].
  destruct (Z.leb_spec ref 48); destruct (Z.ltb_spec 48 ref); try lia;
    run_monad; [reflexivity |].
  change (wrap32 (-1520547049)) with HEADER_MAGIC.
  destruct (load32 (mem s) (wrap32 (ref - 8)) =? HEADER_MAGIC); reflexivity.
Qed.



(** X29. On 32-bit values the exported subOpt undoes the exported add.
    Through its trampoline subOpt takes one or two arguments: with one,
    the second defaults to 0 and the first comes back; with none or with
    more than two it traps. *)
Theorem subOpt_undoes_add (argc a b : Z) :
  0 <= a < 2 ^ 32 -> 0 <= argc < 2 ^ 32 ->
  compiled.subOpt (compiled.add a b) b = a
  /\ compiled.subOpt_trampoline argc a b
     = if argc =? 1 then Some a
       else if argc =? 2 then Some (compiled.subOpt a b)
       else None.
Proof.
  intros Ha Hargc. split.
  - unfold compiled.subOpt, compiled.add, wrap32.
    rewrite Zminus_mod_idemp_l. replace (a + b - b) with a by lia.
    now apply Z.mod_small.
  - unfold compiled.subOpt_trampoline, compiled.subOpt.
    destruct (Z.eqb_spec argc 1) as [-> | H1].
    { change (wrap32 (1 - 1)) with 0. rewrite Z.sub_0_r. f_equal.
      now apply wrap32_small. }
    destruct (Z.eqb_spec argc 2) as [-> | H2]; [reflexivity |].
    destruct (Z.eq_dec argc 0) as [-> | H0]; [reflexivity |].
    rewrite wrap32_small by lia.
    destruct (argc - 1) as [| [q | q |] | q] eqn:E; try lia; reflexivity.
Qed.

Lemma subOpt_undoes_add_witness :
  compiled.subOpt (compiled.add 7 (2 ^ 32 - 1)) (2 ^ 32 - 1) = 7
  /\ compiled.subOpt_trampoline 1 7 (2 ^ 32 - 1) = Some 7.
Proof.
  apply (subOpt_undoes_add 1 7 (2 ^ 32 - 1));
    vm_compute; split; discriminate || reflexivity.
Defined.
